(** * Sheep weight API: checkpoint adaptation and inference pipeline

    A shallow embedding of [backend.py]: the checkpoint loader and key
    remapper of [load_model], the output rescaler and metric classifier of
    [predict_metrics], [determine_status], and the carcass composition of
    [predict_weight_endpoint].

    Conventions of the embedding:
    - Python floats are IEEE binary64 values, given by the Standard
      Library's [spec_float] with [prec = 53] and [emax = 1024];
    - Python [str] is [string]; [str.lower] is the ASCII lowering (names
      are taken to be ASCII);
    - a Python [dict] is an association list in insertion order, with
      string keys;
    - an exception is a value of [exn]; code that can raise returns a
      [result];
    - the logger is a list of records, newest last. *)

From Stdlib Require Import ZArith Lia Bool List String Ascii SpecFloat.
From stdpp Require Import base option list gmap strings pretty.

(** ** Python floats *)

Module PyFloat.

Definition float : Type := spec_float.

Definition prec : Z := 53.
Definition emax : Z := 1024.

Definition fadd : float -> float -> float := SFadd prec emax.
Definition fsub : float -> float -> float := SFsub prec emax.
Definition fmul : float -> float -> float := SFmul prec emax.
Definition fdiv : float -> float -> float := SFdiv prec emax.

(** [x < y], [x <= y], [x > y] and [x == y] on floats. *)
Definition flt (x y : float) : bool := SFltb x y.
Definition fle (x y : float) : bool := SFleb x y.
Definition fgt (x y : float) : bool := SFltb y x.
Definition feq (x y : float) : bool := SFeqb x y.

(** The float an integer literal denotes when it meets a float in a
    comparison or an arithmetic operation (exact for the small
    constants of the program). *)
Definition of_Z (n : Z) : float := binary_normalize prec emax n 0 false.

(** The float literal [0.0]. *)
Definition zero : float := S754_zero false.

(** The float a decimal literal [n / 10^k] denotes: the quotient of two
    exactly representable integers, correctly rounded. *)
Definition of_decimal (n : Z) (k : nat) : float :=
  fdiv (of_Z n) (of_Z (10 ^ Z.of_nat k)).

(** [max(0.0, x)]: the builtin keeps its first argument unless a later
    one is strictly greater. *)
Definition max0 (x : float) : float := if fgt x zero then x else zero.

Definition valid (x : float) : bool := valid_binary prec emax x.

End PyFloat.
Export PyFloat.

(** ** Python strings *)

Module PyStr.

Definition lower_ascii (c : ascii) : ascii :=
  let n := nat_of_ascii c in
  if (65 <=? n)%nat && (n <=? 90)%nat then ascii_of_nat (n + 32) else c.

(** [s.lower()] *)
Fixpoint lower (s : string) : string :=
  match s with
  | EmptyString => EmptyString
  | String c s' => String (lower_ascii c) (lower s')
  end.

(** [s.startswith(p)] *)
Fixpoint startswith (s p : string) {struct p} : bool :=
  match p, s with
  | EmptyString, _ => true
  | String _ _, EmptyString => false
  | String a p', String b s' => if Ascii.eqb a b then startswith s' p' else false
  end.

(** [sub in s] *)
Fixpoint str_in (sub s : string) : bool :=
  startswith s sub ||
  match s with
  | EmptyString => false
  | String _ s' => str_in sub s'
  end.

(** [s.replace(old, '')] for a non-empty [old]: every occurrence of
    [old], found from left to right without overlap, is removed.
    [skip] counts the characters of the occurrence being removed. *)
Fixpoint remove_from (old : string) (skip : nat) (s : string) : string :=
  match s with
  | EmptyString => EmptyString
  | String c s' =>
      match skip with
      | S k => remove_from old k s'
      | O =>
          if startswith s old
          then remove_from old (String.length old - 1) s'
          else String c (remove_from old 0 s')
      end
  end.

Definition replace_empty (s old : string) : string := remove_from old 0 s.

(** [sub] occurs in [s] as a contiguous substring. *)
Definition substring_of (sub s : string) : Prop :=
  exists pre post : string, s = (pre +:+ sub +:+ post)%string.

End PyStr.
Export PyStr.

(** ** Exceptions and results *)

Inductive exn : Type :=
| AttributeError
| TypeError
| IndexError
| RuntimeError
| OtherException (msg : string).

Inductive result (A : Type) : Type :=
| Ok (a : A)
| Raise (e : exn).
Arguments Ok {A} a.
Arguments Raise {A} e.

#[global] Instance result_ret : MRet result := fun _ a => Ok a.
#[global] Instance result_bind : MBind result :=
  fun _ _ f m => match m with Ok a => f a | Raise e => Raise e end.

(** ** The logger *)

Inductive level : Type := INFO | WARNING | ERROR.

Definition log : Type := list (level * string).

(** ** Python dictionaries, in insertion order *)

Module Dict.
Section Dict.
Context {V : Type}.

(** [d.get(k)] *)
Fixpoint get (d : list (string * V)) (k : string) : option V :=
  match d with
  | [] => None
  | (k', v) :: d' => if String.eqb k' k then Some v else get d' k
  end.

(** [k in d] *)
Definition mem (d : list (string * V)) (k : string) : bool :=
  match get d k with Some _ => true | None => false end.

(** [d[k] = v]: an existing key keeps its place and takes the new
    value, a new key goes to the end. *)
Fixpoint set (d : list (string * V)) (k : string) (v : V) : list (string * V) :=
  match d with
  | [] => [(k, v)]
  | (k', v') :: d' =>
      if String.eqb k' k then (k', v) :: d' else (k', v') :: set d' k v
  end.

Definition keys (d : list (string * V)) : list string := d.*1.

(** The invariant of a dictionary: no key occurs twice. *)
Definition wf (d : list (string * V)) : Prop := NoDup (keys d).

End Dict.
End Dict.

(** ** Python values found in a checkpoint *)

Record tensor : Type := mkTensor { shape : list nat; data : list float }.

(** A fitted scaler, known by its [inverse_transform] on a 2-D array. *)
Record scaler : Type :=
  mkScaler { inverse_transform : list (list float) -> result (list (list float)) }.

#[warnings="-register-all"]
Inductive pyval : Type :=
| VNone
| VStr (s : string)
| VList (l : list pyval)
| VDict (d : list (string * pyval))
| VTensor (t : tensor)
| VScaler (s : scaler)
| VModule (sd : list (string * tensor)).   (* an [nn.Module], known by its [state_dict()] *)

Fixpoint chunks {A : Type} (k n : nat) (l : list A) : list (list A) :=
  match n with
  | O => []
  | S n' => take k l :: chunks k n' (drop k l)
  end.

(** [bool(v)] *)
Definition py_truthy (v : pyval) : result bool :=
  match v with
  | VNone => Ok false
  | VStr s => Ok (negb (String.eqb s EmptyString))
  | VList l => Ok (negb (Nat.eqb (length l) 0))
  | VDict d => Ok (negb (Nat.eqb (length d) 0))
  | VTensor t =>
      match data t with
      | [x] => Ok (negb (feq x zero))
      | _ => Raise RuntimeError
      end
  | VScaler _ => Ok true
  | VModule _ => Ok true
  end.

(** [len(v)] *)
Definition py_len (v : pyval) : result nat :=
  match v with
  | VStr s => Ok (String.length s)
  | VList l => Ok (length l)
  | VDict d => Ok (length d)
  | VTensor t =>
      match shape t with
      | n :: _ => Ok n
      | [] => Raise TypeError
      end
  | VNone | VScaler _ | VModule _ => Raise TypeError
  end.

Fixpoint chars (s : string) : list pyval :=
  match s with
  | EmptyString => []
  | String c s' => VStr (String c EmptyString) :: chars s'
  end.

(** The elements [for x in v] visits. *)
Definition py_iter (v : pyval) : result (list pyval) :=
  match v with
  | VStr s => Ok (chars s)
  | VList l => Ok l
  | VDict d => Ok (VStr <$> Dict.keys d)
  | VTensor t =>
      match shape t with
      | n :: rest =>
          Ok ((fun d => VTensor (mkTensor rest d)) <$> chunks (foldr Nat.mul 1 rest) n (data t))
      | [] => Raise TypeError
      end
  | VNone | VScaler _ | VModule _ => Raise TypeError
  end.

(** [v.lower()] *)
Definition py_lower (v : pyval) : result string :=
  match v with
  | VStr s => Ok (lower s)
  | _ => Raise AttributeError
  end.

(** [v.inverse_transform(x)] *)
Definition py_inverse_transform (v : pyval) (x : list (list float)) : result (list (list float)) :=
  match v with
  | VScaler s => inverse_transform s x
  | _ => Raise AttributeError
  end.

(** [a[0]] *)
Definition index0 {A : Type} (a : list A) : result A :=
  match a with
  | x :: _ => Ok x
  | [] => Raise IndexError
  end.

(** ** Process-wide state (the module's globals) *)

(** A bound model: the parameters of the network by name, and whether it
    is in inference mode. *)
Record net : Type := mkNet { params : gmap string tensor; eval_mode : bool }.

Record globals : Type := mkGlobals {
  model : option net;
  model_loaded : bool;
  output_scaler : pyval;
  target_names : pyval
}.

Definition default_target_names : pyval :=
  VList [VStr "weight"; VStr "lean"; VStr "fat"; VStr "bone"].

Definition initial_globals : globals :=
  {| model := None; model_loaded := false;
     output_scaler := VNone; target_names := default_target_names |}.

(** ** The metric classifier of [predict_metrics] *)

Record metrics : Type := mkMetrics {
  live_weight : float;
  lean_mass : float;
  fat_mass : float;
  carcass_weight : float
}.

Definition results0 : metrics :=
  {| live_weight := zero; lean_mass := zero; fat_mass := zero; carcass_weight := zero |}.

Inductive bucket : Type := LiveWeight | LeanMass | FatMass | CarcassWeight.

#[global] Instance bucket_eq_dec : EqDecision bucket.
Proof. solve_decision. Defined.

Definition get_bucket (b : bucket) (r : metrics) : float :=
  match b with
  | LiveWeight => live_weight r
  | LeanMass => lean_mass r
  | FatMass => fat_mass r
  | CarcassWeight => carcass_weight r
  end.

Definition set_bucket (b : bucket) (val : float) (r : metrics) : metrics :=
  match b with
  | LiveWeight => mkMetrics val (lean_mass r) (fat_mass r) (carcass_weight r)
  | LeanMass => mkMetrics (live_weight r) val (fat_mass r) (carcass_weight r)
  | FatMass => mkMetrics (live_weight r) (lean_mass r) val (carcass_weight r)
  | CarcassWeight => mkMetrics (live_weight r) (lean_mass r) (fat_mass r) val
  end.

(** The [if]/[elif] chain on the lowered name. *)
Definition bucket_of (name_clean : string) : option bucket :=
  if str_in "weight_kg" name_clean then Some LiveWeight
  else if str_in "lean_kg" name_clean then Some LeanMass
  else if str_in "fat_kg" name_clean then Some FatMass
  else if str_in "carcass" name_clean then Some CarcassWeight
  else None.

(** The body of the loop over [enumerate(target_names)]. *)
Definition loop_body (predictions : list float) (results : metrics)
    (i : nat) (name : pyval) : result metrics :=
  if (i <? length predictions)%nat then
    let val := max0 (nth i predictions zero) in
    name_clean ← py_lower name;
    mret (match bucket_of name_clean with
          | Some b => set_bucket b val results
          | None => results
          end)
  else mret results.

Fixpoint classify_loop (predictions : list float) (names : list pyval)
    (i : nat) (results : metrics) : result metrics :=
  match names with
  | [] => mret results
  | name :: rest =>
      results' ← loop_body predictions results i name;
      classify_loop predictions rest (S i) results'
  end.

Definition metric_classifier (target_names : pyval) (predictions : list float) : result metrics :=
  names ← py_iter target_names;
  classify_loop predictions names 0 results0.

(** The output rescaler of [predict_metrics]: the prediction row and the
    records it logs. *)
Definition rescale (output_scaler : pyval) (raw_numpy : list (list float))
    : log * result (list float) :=
  match py_truthy output_scaler with
  | Raise e => ([], Raise e)
  | Ok true =>
      match py_inverse_transform output_scaler raw_numpy ≫= index0 with
      | Ok predictions => ([], Ok predictions)
      | Raise e => ([(ERROR, "Scaler failed")], index0 raw_numpy)
      end
  | Ok false => ([], index0 raw_numpy)
  end.

(** [predict_metrics], given the array [raw_numpy] the forward pass
    produced. *)
Definition predict_metrics (g : globals) (raw_numpy : list (list float))
    : log * result metrics :=
  match rescale (output_scaler g) raw_numpy with
  | (l, Raise e) => (l, Raise e)
  | (l, Ok predictions) =>
      (l ++ [(INFO, "Raw Model Predictions")],
       metric_classifier (target_names g) predictions)
  end.

(** ** Status and carcass composition *)

Definition determine_status (weight : float) : string :=
  if flt weight (of_Z 40) then "Underweight"
  else if flt weight (of_Z 45) then "Low"
  else if flt weight (of_Z 55) then "Healthy"
  else if flt weight (of_Z 65) then "Good"
  else "Excellent".

(** A number of the report: the degenerate branch of the composition
    yields the integer 0, the other one floats. *)
Inductive pynum : Type :=
| PInt (n : Z)
| PFloat (x : float).

Record composition : Type := mkComposition {
  lean_pct : pynum;
  fat_pct : pynum;
  other_pct : pynum
}.

(** Step 4 of [predict_weight_endpoint]. *)
Definition carcass_details (m : metrics) : composition :=
  let carcass_weight := carcass_weight m in
  if fgt carcass_weight (of_Z 0) then
    let lean_pct := fmul (fdiv (lean_mass m) carcass_weight) (of_Z 100) in
    let fat_pct := fmul (fdiv (fat_mass m) carcass_weight) (of_Z 100) in
    let total_mass := fadd (lean_mass m) (fat_mass m) in
    let other_pct :=
      if fgt total_mass carcass_weight then zero
      else fsub (of_Z 100) (fadd lean_pct fat_pct) in
    mkComposition (PFloat lean_pct) (PFloat fat_pct) (PFloat other_pct)
  else mkComposition (PInt 0) (PInt 0) (PInt 0).

(** ** The key remapper of [load_model] *)

(** One iteration of the loop over [state_dict.items()]. *)
Definition remap_step {V : Type} (new_state_dict : list (string * V))
    (item : string * V) : list (string * V) :=
  let '(key, value) := item in
  if startswith key "cnn." then
    let new_key := replace_empty key "cnn." in
    Dict.set new_state_dict new_key value
  else if negb (startswith key "tab_mlp") && negb (startswith key "final_head") then
    Dict.set new_state_dict key value
  else new_state_dict.

Definition remap {V : Type} (state_dict : list (string * V)) : list (string * V) :=
  foldl remap_step [] state_dict.

(** ** The checkpoint loader of [load_model] *)

(** [a or b] *)
Definition py_or (a b : pyval) : result pyval :=
  t ← py_truthy a; mret (if t : bool then a else b).

(** [d.get(k)], with [None] for an absent key *)
Definition py_get (d : list (string * pyval)) (k : string) : pyval :=
  default VNone (Dict.get d k).

(** [v.state_dict()] *)
Definition py_state_dict (v : pyval) : result pyval :=
  match v with
  | VModule sd => Ok (VDict (prod_map id VTensor <$> sd))
  | _ => Raise AttributeError
  end.

(** [v.items()] *)
Definition py_items (v : pyval) : result (list (string * pyval)) :=
  match v with
  | VDict d => Ok d
  | _ => Raise AttributeError
  end.

(** Step 3 of [load_model]: where the parameter mapping is taken from. *)
Definition locate_state_dict (checkpoint : pyval) : result pyval :=
  match checkpoint with
  | VDict d =>
      first ← py_or (py_get d "state_dict") (py_get d "model_state_dict");
      py_or first checkpoint
  | _ => py_state_dict checkpoint
  end.

(** ** A state monad for the globals and the logger *)

Definition M (A : Type) : Type := globals * log -> globals * log * result A.

#[global] Instance M_ret : MRet M := fun _ a s => (s, Ok a).
#[global] Instance M_bind : MBind M :=
  fun _ _ f m s =>
    match m s with
    | (s', Ok a) => f a s'
    | (s', Raise e) => (s', Raise e)
    end.

Definition lift {A : Type} (r : result A) : M A := fun s => (s, r).
Definition gets {A : Type} (f : globals -> A) : M A := fun s => (s, Ok (f s.1)).
Definition modify (f : globals -> globals) : M unit := fun s => ((f s.1, s.2), Ok tt).
Definition logger (lv : level) (msg : string) : M unit :=
  fun s => ((s.1, s.2 ++ [(lv, msg)]), Ok tt).
Definition skip : M unit := mret tt.

(** [try: body except Exception as e: handler(e)]: what [body] did to the
    state before it raised stays done. *)
Definition try_except {A : Type} (body : M A) (handler : exn -> M A) : M A :=
  fun s =>
    match body s with
    | (s', Ok a) => (s', Ok a)
    | (s', Raise e) => handler e s'
    end.

Definition set_model (m : option net) : M unit :=
  modify (fun g => mkGlobals m (model_loaded g) (output_scaler g) (target_names g)).
Definition set_model_loaded (b : bool) : M unit :=
  modify (fun g => mkGlobals (model g) b (output_scaler g) (target_names g)).
Definition set_output_scaler (v : pyval) : M unit :=
  modify (fun g => mkGlobals (model g) (model_loaded g) v (target_names g)).
Definition set_target_names (v : pyval) : M unit :=
  modify (fun g => mkGlobals (model g) (model_loaded g) (output_scaler g) v).

(** ** The library calls of [load_model] *)

(** What [load_state_dict] gives back when it does not raise. *)
Record incompatible_keys : Type := mkKeys {
  missing_keys : list string;
  unexpected_keys : list string
}.

Record env : Type := mkEnv {
  (** [os.path.exists(MODEL_PATH)] *)
  path_exists : bool;
  (** [torch.load(MODEL_PATH, ...)] *)
  torch_load : result pyval;
  (** the parameters of [models.resnet18(weights=None)] *)
  resnet18 : gmap string tensor;
  (** the initial weight and bias data of [nn.Linear(in_features, out_features)] *)
  linear_data : nat -> nat -> list float * list float;
  (** [module.load_state_dict(state_dict, strict=False)]: the parameters
      afterwards (the module is updated in place, also when the call
      raises) and the outcome *)
  load_state_dict :
    gmap string tensor -> list (string * pyval) ->
    gmap string tensor * result incompatible_keys
}.

(** [model.fc.in_features] of ResNet-18 *)
Definition fc_in_features : nat := 512.

(** [model.fc = nn.Linear(in_features, out_features)] *)
Definition replace_fc (E : env) (in_features out_features : nat) (m : net) : net :=
  let '(w, b) := linear_data E in_features out_features in
  mkNet (<["fc.bias" := mkTensor [out_features] b]>
           (<["fc.weight" := mkTensor [out_features; in_features] w]> (params m)))
        (eval_mode m).

(** An attribute or method of the global [model], which is [None] until
    a load has built one. *)
Definition the_model : M net :=
  m ← gets model;
  match m with
  | Some n => mret n
  | None => lift (Raise AttributeError)
  end.

(** Step 6 of [load_model]: bind the cleaned weights; an exception of the
    binding is logged and goes no further. *)
Definition bind_weights (E : env) (new_state_dict : list (string * pyval)) : M unit :=
  try_except
    (m ← the_model;
     let '(params', outcome) := load_state_dict E (params m) new_state_dict in
     set_model (Some (mkNet params' (eval_mode m)));;
     _ ← lift outcome;
     logger INFO "ResNet weights extracted and loaded successfully")
    (fun e => logger ERROR "Weight loading error").

(** The body of the outer [try] of [load_model]. *)
Definition load_model_body (E : env) : M bool :=
  logger INFO "Loading Model";;
  checkpoint ← lift (torch_load E);
  (* 1. a fresh ResNet-18, in training mode *)
  set_model (Some (mkNet (resnet18 E) false));;
  (* 2. the metadata of a container; [isinstance(checkpoint, dict)] *)
  match checkpoint with
  | VDict d =>
      (if Dict.mem d "target_scaler" then set_output_scaler (py_get d "target_scaler")
       else if Dict.mem d "scaler" then set_output_scaler (py_get d "scaler")
       else skip);;
      (if Dict.mem d "target_names" then set_target_names (py_get d "target_names")
       else skip)
  | _ => skip
  end;;
  (* 3. the parameter mapping *)
  state_dict ← lift (locate_state_dict checkpoint);
  (* 4. the keys *)
  items ← lift (py_items state_dict);
  let new_state_dict := remap items in
  (* 5. the final layer; [len(target_names) if target_names else 4] *)
  names ← gets target_names;
  t ← lift (py_truthy names);
  num_outputs ← (if t : bool then lift (py_len names) else mret 4);
  m ← the_model;
  set_model (Some (replace_fc E fc_in_features num_outputs m));;
  (* 6. the weights *)
  bind_weights E new_state_dict;;
  (* [model.to(DEVICE)] moves the parameters and keeps their values;
     [model.eval()] *)
  m ← the_model;
  set_model (Some (mkNet (params m) true));;
  set_model_loaded true;;
  mret true.

Definition load_model (E : env) : M bool :=
  if negb (path_exists E) then
    logger WARNING "Model file not found";;
    mret false
  else
    try_except (load_model_body E)
      (fun e =>
         logger ERROR "Error loading model";;
         logger ERROR "traceback";;
         mret false).

(** ** Non-strict weight binding *)

(** Whether a value of the mapping can be bound to the parameter [p]: it
    is a tensor of the same shape. *)
Definition bindable (v : pyval) (p : tensor) : option tensor :=
  match v with
  | VTensor t => if decide (shape t = shape p) then Some t else None
  | _ => None
  end.

Definition bind_param (state_dict : list (string * pyval)) (name : string) (p : tensor) : tensor :=
  match Dict.get state_dict name with
  | Some v => default p (bindable v p)
  | None => p
  end.

(** The entries of the mapping that name a parameter of the architecture
    but cannot be bound to it. *)
Definition incompatible (arch : gmap string tensor) (state_dict : list (string * pyval))
    : list string :=
  (List.filter
     (fun kv : string * pyval =>
        match arch !! kv.1 with
        | Some p => match bindable kv.2 p with Some _ => false | None => true end
        | None => false
        end)
     state_dict).*1.

(** The entries of the mapping that name no parameter of the architecture. *)
Definition unexpected (arch : gmap string tensor) (state_dict : list (string * pyval))
    : list string :=
  (List.filter
     (fun kv : string * pyval => match arch !! kv.1 with Some _ => false | None => true end)
     state_dict).*1.

(** The parameters of the architecture the mapping does not name. *)
Definition missing (arch : gmap string tensor) (state_dict : list (string * pyval))
    : list string :=
  List.filter (fun name => negb (Dict.mem state_dict name)) (map_to_list arch).*1.

(** Modelled from the spec: PyTorch's [Module.load_state_dict] with
    [strict=False], library code that is not part of the repository.
    By 4.4 of the specification, parameters present in the architecture
    but absent from the mapping retain their initialized values, and
    parameters present in the mapping but absent from, or
    shape-incompatible with, the architecture are skipped.  The library
    reports the shape-incompatible entries by raising once the other
    parameters are bound (the [except] of step 6 is there for it), and
    gives back the missing and unexpected names otherwise. *)
Definition nonstrict_load_state_dict (arch : gmap string tensor)
    (state_dict : list (string * pyval))
    : gmap string tensor * result incompatible_keys :=
  (map_imap (fun name p => Some (bind_param state_dict name p)) arch,
   match incompatible arch state_dict with
   | [] => Ok (mkKeys (missing arch state_dict) (unexpected arch state_dict))
   | _ :: _ => Raise RuntimeError
   end).

(** ** The prediction endpoint *)

Record report : Type := mkReport {
  weight_kg : float;
  confidence : float;
  status : string;
  image_name : string;
  lean_percent : pynum;
  fat_percent : pynum;
  bone_percent : pynum;
  raw_lean : float;
  raw_fat : float;
  raw_carcass_total : float
}.

Inductive response : Type :=
| Simulation (weight_kg confidence : float) (status image_name : string)
| Success (r : report)
| Error500 (e : exn).

(** What a request brings and what the libraries do with it. *)
Record request : Type := mkRequest {
  filename : string;
  (** [Image.open(io.BytesIO(contents))] *)
  image_open : result unit;
  (** [model(preprocess_image(image)).cpu().numpy()] *)
  forward : result (list (list float));
  (** the draw of [random.uniform(a, b)] *)
  uniform : float -> float -> float
}.

Section Endpoint.

(** [round(x, ndigits)] on floats, which raises for no float when
    [ndigits] is 1 or 2. *)
Variable round_float : float -> Z -> float.

Definition py_round (x : pynum) (ndigits : Z) : pynum :=
  match x with
  | PInt n => PInt n
  | PFloat f => PFloat (round_float f ndigits)
  end.

(** Steps 2 to 5, the body of the [try] of the endpoint. *)
Definition real_prediction (g : globals) (rq : request) : log * result report :=
  match forward rq with
  | Raise e => ([], Raise e)
  | Ok raw_numpy =>
      match predict_metrics g raw_numpy with
      | (l, Raise e) => (l, Raise e)
      | (l, Ok metrics) =>
          let current_weight := live_weight metrics in
          let status := determine_status current_weight in
          let c := carcass_details metrics in
          let simulated_confidence := round_float (uniform rq (of_Z 88) (of_Z 99)) 1 in
          (l, Ok {| weight_kg := round_float current_weight 2;
                    confidence := simulated_confidence;
                    status := status;
                    image_name := filename rq;
                    lean_percent := py_round (lean_pct c) 1;
                    fat_percent := py_round (fat_pct c) 1;
                    bone_percent := py_round (other_pct c) 1;
                    raw_lean := round_float (lean_mass metrics) 2;
                    raw_fat := round_float (fat_mass metrics) 2;
                    raw_carcass_total := round_float (carcass_weight metrics) 2 |})
      end
  end.

Definition predict_weight_endpoint (g : globals) (rq : request) : log * result response :=
  if negb (model_loaded g) then
    let sim_weight := round_float (uniform rq (of_Z 40) (of_Z 70)) 2 in
    ([(WARNING, "Model not loaded, simulating response for UI testing")],
     Ok (Simulation sim_weight (round_float (uniform rq (of_Z 85) (of_Z 98)) 1)
           (determine_status sim_weight) (filename rq)))
  else
    match image_open rq with
    | Raise e => ([], Raise e)
    | Ok _ =>
        match real_prediction g rq with
        | (l, Ok r) => (l, Ok (Success r))
        | (l, Raise e) => (l ++ [(ERROR, "Prediction error")], Ok (Error500 e))
        end
    end.

End Endpoint.

(** ** Notions the properties are stated with *)

(** The first-match rule of the classifier on a lowered name [s]. *)
Definition first_match_rule (s : string) (ob : option bucket) : Prop :=
  match ob with
  | Some LiveWeight => substring_of "weight_kg" s
  | Some LeanMass => ~ substring_of "weight_kg" s /\ substring_of "lean_kg" s
  | Some FatMass =>
      ~ substring_of "weight_kg" s /\ ~ substring_of "lean_kg" s /\
      substring_of "fat_kg" s
  | Some CarcassWeight =>
      ~ substring_of "weight_kg" s /\ ~ substring_of "lean_kg" s /\
      ~ substring_of "fat_kg" s /\ substring_of "carcass" s
  | None =>
      ~ substring_of "weight_kg" s /\ ~ substring_of "lean_kg" s /\
      ~ substring_of "fat_kg" s /\ ~ substring_of "carcass" s
  end.

(** The name at index [i + j] of the target vector, [names] being what is
    left of it from index [i] on, has a prediction and falls into [b]. *)
Definition hit (predictions : list float) (names : list string) (i : nat)
    (b : bucket) (j : nat) : Prop :=
  exists name : string,
    names !! j = Some name /\ (i + j < length predictions)%nat /\
    bucket_of (lower name) = Some b.

(** What the remapper does with a name: the name it is kept under, or
    [None] when it is dropped. *)
Definition new_key_of (key : string) : option string :=
  if startswith key "cnn." then Some (replace_empty key "cnn.")
  else if negb (startswith key "tab_mlp") && negb (startswith key "final_head")
       then Some key
       else None.

(** A name of the canonical scheme: no backbone prefix and no prefix of a
    non-backbone branch. *)
Definition canonical (key : string) : Prop :=
  startswith key "cnn." = false /\
  startswith key "tab_mlp" = false /\
  startswith key "final_head" = false.

(** The name without its first [n] characters. *)
Fixpoint string_drop (n : nat) (s : string) : string :=
  match n, s with
  | O, _ => s
  | S _, EmptyString => EmptyString
  | S n', String _ s' => string_drop n' s'
  end.

(** Stripping a prefix, as the specification words the remapper: the
    prefix goes, the rest of the name stays as it is. *)
Definition strip_prefix (key pre : string) : string :=
  string_drop (String.length pre) key.

(** A float that denotes a number. *)
Definition is_finite (x : float) : bool :=
  match x with
  | S754_zero _ | S754_finite _ _ _ => true
  | S754_infinity _ | S754_nan => false
  end.

(** The number a finite binary64 value denotes, counted in units of
    2^-1074, the least positive value: an integer. *)
Definition ticks (x : float) : Z :=
  match x with
  | S754_finite s m e => cond_Zopp s (Zpos m * 2 ^ (e + 1074))
  | _ => 0
  end.

(** The number 1 in those units. *)
Definition unit_ticks : Z := 2 ^ 1074.

(** The size of a value, by which a container is larger than the values
    it holds. *)
Fixpoint pyval_size (v : pyval) : nat :=
  match v with
  | VList l => S (foldr (fun x n => pyval_size x + n) 0 l)
  | VDict d => S (foldr (fun kv n => pyval_size kv.2 + n) 0 d)
  | _ => 1
  end.

(** The globals with no scaler recovered. *)
Definition without_scaler (g : globals) : globals :=
  mkGlobals (model g) (model_loaded g) VNone (target_names g).

(** A record of the log that reports a problem. *)
Definition is_problem (r : level * string) : bool :=
  match r.1 with
  | INFO => false
  | WARNING | ERROR => true
  end.

(** A computation on the globals that leaves the target vector as it
    finds it. *)
Definition keeps_target_names {A : Type} (c : M A) : Prop :=
  forall s, target_names (c s).1.1 = target_names s.1.

(** ** Concrete inputs *)

Definition example_tensor : tensor := mkTensor [2] [of_Z 1; of_Z 2].

Definition example_init : tensor := mkTensor [2] [zero; zero].

(** A one-parameter architecture and a checkpoint for it. *)
Definition example_arch : gmap string tensor := {["bn1.weight"%string := example_init]}.

Definition example_checkpoint : pyval :=
  VDict [("cnn.bn1.weight"%string, VTensor example_tensor)].

Definition example_env (exists_ : bool) (loaded : result pyval) : env :=
  {| path_exists := exists_;
     torch_load := loaded;
     resnet18 := example_arch;
     linear_data := fun _ _ => ([], []);
     load_state_dict := nonstrict_load_state_dict |}.

(** A scaler whose inverse transform raises for every input. *)
Definition failing_scaler : scaler :=
  mkScaler (fun _ => Raise (OtherException "not fitted")).

Definition example_request : request :=
  {| filename := "sheep.jpg";
     image_open := Ok tt;
     forward := Ok [[of_Z 50; of_Z 20; of_Z 10; of_Z 40]];
     uniform := fun a _ => a |}.

(** ** Startup and the informational routes *)

(** [s * n] on a string *)
Fixpoint str_mul (s : string) (n : nat) : string :=
  match n with
  | O => EmptyString
  | S n' => (s +:+ str_mul s n')%string
  end.

(** The part of [lifespan] that runs before the server accepts
    requests; the value [load_model] returns is dropped. *)
Definition lifespan_startup (E : env) : M unit :=
  logger INFO (str_mul "=" 60);;
  logger INFO "Starting Sheep Weight Prediction API";;
  logger INFO (str_mul "=" 60);;
  _ ← load_model E;
  logger INFO (str_mul "=" 60);;
  logger INFO "Server ready to accept requests";;
  logger INFO (str_mul "=" 60).

(** The part of [lifespan] that runs at shutdown. *)
Definition lifespan_shutdown : M unit := logger INFO "Shutting down server...".

(** JSON values, as the routes return them and the client reads them. *)
#[warnings="-register-all"]
Inductive json : Type :=
| JNull
| JBool (b : bool)
| JNum (x : pynum)
| JStr (s : string)
| JList (l : list json)
| JObj (d : list (string * json)).

(** [GET /] *)
Definition root : json :=
  JObj [("message"%string, JStr "Sheep Weight API Running");
        ("status"%string, JStr "online")].

(** [GET /health] *)
Definition health_check (g : globals) : json :=
  JObj [("status"%string, JStr "healthy");
        ("model_loaded"%string, JBool (model_loaded g))].

(** ** What the prediction route sends *)

Section Transport.

(** [str(e)] of an exception of the backend *)
Variable exn_text : exn -> string.

(** The dictionary the route returns, or the content of its
    [JSONResponse]. *)
Definition response_body (r : response) : json :=
  match r with
  | Simulation w c st name =>
      JObj [("success"%string, JBool true);
            ("weight_kg"%string, JNum (PFloat w));
            ("confidence"%string, JNum (PFloat c));
            ("status"%string, JStr st);
            ("image_name"%string, JStr name);
            ("note"%string, JStr "SIMULATION MODE")]
  | Success r =>
      JObj [("success"%string, JBool true);
            ("weight_kg"%string, JNum (PFloat (weight_kg r)));
            ("confidence"%string, JNum (PFloat (confidence r)));
            ("status"%string, JStr (status r));
            ("image_name"%string, JStr (image_name r));
            ("details"%string,
             JObj [("carcass"%string,
                    JObj [("lean_percent"%string, JNum (lean_percent r));
                          ("fat_percent"%string, JNum (fat_percent r));
                          ("bone_percent"%string, JNum (bone_percent r))]);
                   ("raw_metrics_kg"%string,
                    JObj [("lean"%string, JNum (PFloat (raw_lean r)));
                          ("fat"%string, JNum (PFloat (raw_fat r)));
                          ("carcass_total"%string, JNum (PFloat (raw_carcass_total r)))])])]
  | Error500 e => JObj [("error"%string, JStr (exn_text e))]
  end.

(** The status code of the response: 500 for the [JSONResponse] of the
    [except] branch, 200 for a returned dictionary. *)
Definition response_status (r : response) : Z :=
  match r with
  | Error500 _ => 500
  | _ => 200
  end.

End Transport.

(** ** The client's upload ([process_upload] of main.py) *)

(** [bool(v)] on a JSON value *)
Definition json_truthy (v : json) : bool :=
  match v with
  | JNull => false
  | JBool b => b
  | JNum (PInt n) => negb (Z.eqb n 0)
  | JNum (PFloat x) => negb (feq x zero)
  | JStr s => negb (String.eqb s EmptyString)
  | JList l => negb (Nat.eqb (length l) 0)
  | JObj d => negb (Nat.eqb (length d) 0)
  end.

(** [type(v).__name__] *)
Definition json_type_name (v : json) : string :=
  match v with
  | JNull => "NoneType"
  | JBool _ => "bool"
  | JNum (PInt _) => "int"
  | JNum (PFloat _) => "float"
  | JStr _ => "str"
  | JList _ => "list"
  | JObj _ => "dict"
  end.

(** [d.get(k, dflt)] *)
Definition get_default (d : list (string * json)) (k : string) (dflt : json) : json :=
  default dflt (Dict.get d k).

(** The text of the [AttributeError] that [data.get] raises when [data]
    is no dictionary. *)
Definition no_get_text (data : json) : string :=
  ("'" +:+ json_type_name data +:+ "' object has no attribute 'get'")%string.

(** The exceptions the client tells apart: the two classes of [requests]
    it names, and any other exception, known by its [str]. *)
Inductive client_exn : Type :=
| ReqTimeout
| ReqConnectionError
| OtherExn (msg : string).

(** What [requests.post] does: it raises, or returns a response with a
    status code and a body that [response.json()] decodes or not. *)
Inductive post_outcome : Type :=
| PostRaises (e : client_exn)
| PostResponse (status_code : Z) (body : json + string).

Record upload_env : Type := mkUploadEnv {
  (** [os.path.exists(file_path)] *)
  up_exists : bool;
  (** [open(file_path, "rb")]: [Some msg] when it raises *)
  up_open : option string;
  (** [requests.post(API_URL, files=files, timeout=10)] *)
  up_post : post_outcome
}.

Definition upload_failed (error : json) : list (string * json) :=
  [("success"%string, JBool false); ("error"%string, error)].

Definition unexpected_error (msg : string) : list (string * json) :=
  upload_failed (JStr ("Unexpected error: " +:+ msg)).

Section Upload.

(** [os.path.basename] *)
Variable basename : string -> string.

Definition process_upload (file_path : string) (U : upload_env) : list (string * json) :=
  if negb (up_exists U) then upload_failed (JStr "File not found")
  else
    match up_open U with
    | Some msg => unexpected_error msg
    | None =>
        match up_post U with
        | PostRaises ReqTimeout =>
            upload_failed (JStr "Request timeout - server took too long")
        | PostRaises ReqConnectionError =>
            upload_failed (JStr "Connection error - is the backend running?")
        | PostRaises (OtherExn msg) => unexpected_error msg
        | PostResponse status_code body =>
            if (status_code =? 200)%Z then
              match body with
              | inr msg => unexpected_error msg
              | inl (JObj d) =>
                  if json_truthy (get_default d "success" (JBool false)) then
                    [("success"%string, JBool true);
                     ("weight_kg"%string, get_default d "weight_kg" (JNum (PInt 0)));
                     ("confidence"%string, get_default d "confidence" (JNum (PInt 0)));
                     ("status"%string, get_default d "status" (JStr "Unknown"));
                     ("image_name"%string, JStr (basename file_path))]
                  else upload_failed (get_default d "error" (JStr "Unknown error"))
              | inl data => unexpected_error (no_get_text data)
              end
            else upload_failed (JStr ("Server error: " +:+ pretty status_code))
        end
    end.

End Upload.

(** ** Assertions on computations *)

(** From a state that satisfies [P], the computation [c] ends in a state
    that satisfies [Q a] when it returns [a] and [X e] when it raises
    [e]. *)
Definition triple {A : Type} (P : globals * log -> Prop) (c : M A)
    (Q : A -> globals * log -> Prop) (X : exn -> globals * log -> Prop) : Prop :=
  forall s, P s ->
    match c s with
    | (s', Ok a) => Q a s'
    | (s', Raise e) => X e s'
    end.

(** The log [l'] is the log [l] with records added at its end. *)
Definition extends (l l' : log) : Prop := exists more : log, l' = l ++ more.

(** ** Notions the further properties are stated with *)

(** The scaler a load recovers from a checkpoint: the value of
    "target_scaler", else the value of "scaler", else the one already
    there. *)
Definition recovered_scaler (checkpoint old : pyval) : pyval :=
  match checkpoint with
  | VDict d =>
      if Dict.mem d "target_scaler" then py_get d "target_scaler"
      else if Dict.mem d "scaler" then py_get d "scaler"
      else old
  | _ => old
  end.

(** The target vector a load recovers from a checkpoint. *)
Definition recovered_names (checkpoint old : pyval) : pyval :=
  match checkpoint with
  | VDict d => if Dict.mem d "target_names" then py_get d "target_names" else old
  | _ => old
  end.

(** [len(target_names) if target_names else 4] *)
Definition head_size (names : pyval) : result nat :=
  t ← py_truthy names;
  if t : bool then py_len names else mret 4%nat.

(** The states a load goes through once the checkpoint is deserialised
    and its metadata stored, up to the switch to inference mode: the flag
    is the one the load found, the log has grown, scaler and target names
    are the recovered ones, and the model is a network in training
    mode. *)
Definition loading (g : globals) (l : log) (checkpoint : pyval)
    (s : globals * log) : Prop :=
  model_loaded s.1 = model_loaded g /\
  extends l s.2 /\
  output_scaler s.1 = recovered_scaler checkpoint (output_scaler g) /\
  target_names s.1 = recovered_names checkpoint (target_names g) /\
  exists m : net, model s.1 = Some m /\ eval_mode m = false.

(** The states a load that returns [True] ends in. *)
Definition loaded (g : globals) (l : log) (checkpoint : pyval)
    (s : globals * log) : Prop :=
  model_loaded s.1 = true /\
  extends l s.2 /\
  output_scaler s.1 = recovered_scaler checkpoint (output_scaler g) /\
  target_names s.1 = recovered_names checkpoint (target_names g) /\
  exists m : net, model s.1 = Some m /\ eval_mode m = true.

(** ** More concrete inputs *)

(** A container with both scaler fields, target names and one
    parameter. *)
Definition example_container : pyval :=
  VDict [("scaler"%string, VNone);
         ("target_scaler"%string, VScaler failing_scaler);
         ("target_names"%string, VList [VStr "weight_kg"; VStr "carcass_kg"]);
         ("cnn.bn1.weight"%string, VTensor example_tensor)].


(** The globals after a first load of [example_checkpoint]. *)
Definition example_loaded : globals :=
  (load_model (example_env true (Ok example_checkpoint)) (initial_globals, [])).1.1.

(** ** Proof automation *)

(** Case analysis on the comparisons a goal about [SFcompare] unfolds to. *)
Ltac compare_cases :=
  repeat match goal with
    | H : context [Pos.compare_cont Eq ?a ?b] |- _ =>
        change (Pos.compare_cont Eq a b) with (Pos.compare a b) in H
    | |- context [Pos.compare_cont Eq ?a ?b] =>
        change (Pos.compare_cont Eq a b) with (Pos.compare a b)
    end;
  repeat match goal with
    | H : context [Z.compare ?a ?b] |- _ => destruct (Z.compare_spec a b)
    | H : context [Pos.compare ?a ?b] |- _ => destruct (Pos.compare_spec a b)
    | |- context [Z.compare ?a ?b] => destruct (Z.compare_spec a b)
    | |- context [Pos.compare ?a ?b] => destruct (Pos.compare_spec a b)
    end;
  simpl in *; try done; try lia.

(** * Properties *)

(** ** Strings *)

Lemma startswith_spec (p s : string) :
  startswith s p = true <-> exists post : string, s = (p +:+ post)%string.
Proof.
  revert s. induction p as [|a p IH]; intros s; simpl.
  - split; [intros _; by exists s | done].
  - destruct s as [|b s].
    + split; [done | intros [post H]; discriminate].
    + destruct (Ascii.eqb_spec a b) as [->|Hne].
      * rewrite IH. split; intros [post H]; exists post.
        -- by rewrite H.
        -- by injection H.
      * split; [done | intros [post H]; injection H; intros; congruence].
Qed.

Lemma str_in_spec (sub s : string) :
  str_in sub s = true <-> substring_of sub s.
Proof.
  unfold substring_of. induction s as [|c s IH].
  - simpl. rewrite orb_false_r, startswith_spec. split.
    + intros [post H]. by exists EmptyString, post.
    + intros [[|a pre] [post H]]; [by exists post | discriminate].
  - cbn [str_in]. rewrite orb_true_iff, IH, startswith_spec. split.
    + intros [[post H] | (pre & post & H)].
      * by exists EmptyString, post.
      * exists (String c pre), post. simpl. by rewrite H.
    + intros ([|a pre] & post & H).
      * left. by exists post.
      * right. exists pre, post. simpl in H. by injection H.
Qed.

Lemma str_in_false (sub s : string) :
  str_in sub s = false <-> ~ substring_of sub s.
Proof.
  rewrite <- str_in_spec. destruct (str_in sub s); split; congruence.
Qed.

(** ** The metric classifier *)

Lemma get_set_bucket_same (b : bucket) (v : float) (r : metrics) :
  get_bucket b (set_bucket b v r) = v.
Proof. by destruct b. Qed.

Lemma get_set_bucket_other (b b' : bucket) (v : float) (r : metrics) :
  b <> b' -> get_bucket b (set_bucket b' v r) = get_bucket b r.
Proof. by destruct b, b'. Qed.

(** What the [if]/[elif] chain decides, in terms of substrings. *)
Lemma bucket_of_spec (s : string) :
  (bucket_of s = Some LiveWeight <-> substring_of "weight_kg" s) /\
  (bucket_of s = Some LeanMass <->
     ~ substring_of "weight_kg" s /\ substring_of "lean_kg" s) /\
  (bucket_of s = Some FatMass <->
     ~ substring_of "weight_kg" s /\ ~ substring_of "lean_kg" s /\
     substring_of "fat_kg" s) /\
  (bucket_of s = Some CarcassWeight <->
     ~ substring_of "weight_kg" s /\ ~ substring_of "lean_kg" s /\
     ~ substring_of "fat_kg" s /\ substring_of "carcass" s) /\
  (bucket_of s = None <->
     ~ substring_of "weight_kg" s /\ ~ substring_of "lean_kg" s /\
     ~ substring_of "fat_kg" s /\ ~ substring_of "carcass" s).
Proof.
  unfold bucket_of.
  rewrite <- !str_in_false, <- !str_in_spec.
  destruct (str_in "weight_kg" s), (str_in "lean_kg" s),
    (str_in "fat_kg" s), (str_in "carcass" s); intuition congruence.
Qed.

Lemma loop_body_str (predictions : list float) (r : metrics) (i : nat) (name : string) :
  loop_body predictions r i (VStr name) =
  Ok (if (i <? length predictions)%nat then
        match bucket_of (lower name) with
        | Some b => set_bucket b (max0 (nth i predictions zero)) r
        | None => r
        end
      else r).
Proof. unfold loop_body. by destruct (i <? length predictions)%nat. Qed.

Lemma classify_loop_str (predictions : list float) (names : list string) :
  forall (i : nat) (r : metrics),
  exists r' : metrics,
    classify_loop predictions (VStr <$> names) i r = Ok r' /\
    forall b : bucket,
      ((forall j, ~ hit predictions names i b j) /\
       get_bucket b r' = get_bucket b r) \/
      (exists j, hit predictions names i b j /\
         (forall j', (j < j')%nat -> ~ hit predictions names i b j') /\
         get_bucket b r' = max0 (nth (i + j) predictions zero)).
Proof.
  induction names as [|name rest IH]; intros i r.
  - exists r. split; [done|]. intros b. left. split; [|done].
    intros j (n & Hn & _). by rewrite lookup_nil in Hn.
  - cbn [fmap list_fmap classify_loop]. rewrite loop_body_str.
    set (r1 := if (i <? length predictions)%nat then _ else r).
    destruct (IH (S i) r1) as (r' & Hrun & Hb).
    exists r'. split; [exact Hrun|].
    intros b. destruct (Hb b) as [[Hno Hget] | (j & Hj & Hlast & Hget)].
    + destruct (decide ((i < length predictions)%nat /\ bucket_of (lower name) = Some b))
        as [[Hi Hbk] | Hnot].
      * right. exists 0%nat. split; [|split].
        -- exists name. rewrite Nat.add_0_r. done.
        -- intros [|j'] Hlt (n & Hn & Hlen & Hbn); [lia|].
           apply (Hno j'). exists n. rewrite <- Nat.add_succ_comm in Hlen. done.
        -- rewrite Hget, Nat.add_0_r. subst r1.
           apply Nat.ltb_lt in Hi. rewrite Hi, Hbk. apply get_set_bucket_same.
      * left. split.
        -- intros [|j] (n & Hn & Hlen & Hbn).
           ++ simpl in Hn. injection Hn as <-. rewrite Nat.add_0_r in Hlen. tauto.
           ++ apply (Hno j). exists n. rewrite <- Nat.add_succ_comm in Hlen. done.
        -- rewrite Hget. subst r1.
           destruct (Nat.ltb_spec i (length predictions)) as [Hi|Hi]; [|done].
           destruct (bucket_of (lower name)) as [b'|] eqn:Hbk; [|done].
           apply get_set_bucket_other. intros ->. tauto.
    + right. exists (S j). split; [|split].
      * destruct Hj as (n & Hn & Hlen & Hbn). exists n.
        rewrite <- Nat.add_succ_comm. done.
      * intros [|j'] Hlt (n & Hn & Hlen & Hbn); [lia|].
        apply (Hlast j'); [lia|]. exists n. rewrite <- Nat.add_succ_comm in Hlen. done.
      * by rewrite <- Nat.add_succ_comm.
Qed.

Lemma bucket_of_first_match (s : string) (ob : option bucket) :
  bucket_of s = ob <-> first_match_rule s ob.
Proof.
  destruct (bucket_of_spec s) as (H1 & H2 & H3 & H4 & H5).
  destruct ob as [[]|]; simpl; tauto.
Qed.

(** C1 (amended). The metric classifier lowers each name and puts it
    into the first bucket of: contains "weight_kg", live_weight; contains
    "lean_kg", lean_mass; contains "fat_kg", fat_mass; contains "carcass",
    carcass_weight; a name matching none is ignored.  The classifier
    returns, and each bucket holds the clamped prediction of the last
    index below the length of the prediction vector whose name falls into
    it, or 0.0 when there is none. *)
Theorem metric_classifier_first_match (names : list string) (predictions : list float) :
  (forall (name : string) (ob : option bucket),
     bucket_of (lower name) = ob <-> first_match_rule (lower name) ob) /\
  exists r : metrics,
    metric_classifier (VList (VStr <$> names)) predictions = Ok r /\
    forall b : bucket,
      ((forall j, ~ hit predictions names 0 b j) /\ get_bucket b r = zero) \/
      (exists j, hit predictions names 0 b j /\
         (forall j', (j < j')%nat -> ~ hit predictions names 0 b j') /\
         get_bucket b r = max0 (nth j predictions zero)).
Proof.
  split; [intros; apply bucket_of_first_match|].
  destruct (classify_loop_str predictions names 0 results0) as (r & Hrun & Hb).
  exists r. split; [exact Hrun|].
  intros b. destruct (Hb b) as [[Hno Hget] | (j & Hj & Hlast & Hget)].
  - left. split; [done|]. rewrite Hget. by destruct b.
  - right. by exists j.
Qed.

(** Counterexample to C1 as worded: a name that contains both
    "weight" and "kg", but not "weight_kg", leaves live_weight at 0.0. *)
Lemma metric_classifier_weight_and_kg_counterexample :
  ~ (forall (name : string) (v : float),
       substring_of "weight" (lower name) -> substring_of "kg" (lower name) ->
       exists r : metrics,
         metric_classifier (VList [VStr name]) [v] = Ok r /\
         live_weight r = max0 v).
Proof.
  intros H.
  destruct (H "Weight (kg)"%string (of_Z 50)) as (r & Hr & Hv).
  - apply str_in_spec. reflexivity.
  - apply str_in_spec. reflexivity.
  - vm_compute in Hr. injection Hr as <-. vm_compute in Hv. discriminate.
Qed.

Lemma loop_body_unmatched (predictions : list float) (r : metrics) (i : nat)
    (name : string) :
  bucket_of (lower name) = None ->
  loop_body predictions r i (VStr name) = Ok r.
Proof.
  intros H. rewrite loop_body_str, H. by destruct (i <? length predictions)%nat.
Qed.

(** C10. With the default target vector no bucket is filled: whatever
    the prediction vector, the classifier returns the four metrics at 0.0,
    none of the four default names falling into a bucket. *)
Theorem default_target_names_fill_no_bucket (predictions : list float) :
  default_target_names = VList (VStr <$> ["weight"; "lean"; "fat"; "bone"]%string) /\
  target_names initial_globals = default_target_names /\
  Forall (fun name : string =>
            bucket_of (lower name) = None /\
            str_in "weight_kg" (lower name) = false /\
            str_in "lean_kg" (lower name) = false /\
            str_in "fat_kg" (lower name) = false /\
            str_in "carcass" (lower name) = false)
         ["weight"; "lean"; "fat"; "bone"]%string /\
  metric_classifier default_target_names predictions =
    Ok (mkMetrics zero zero zero zero).
Proof.
  split; [reflexivity|]. split; [reflexivity|]. split.
  - repeat constructor.
  - unfold metric_classifier, default_target_names.
    cbn [py_iter mbind result_bind classify_loop].
    repeat (rewrite loop_body_unmatched by reflexivity; cbn [mbind result_bind]).
    reflexivity.
Qed.

(** The clamp yields a number that is not negative, so every metric the
    classifier returns is one. *)
Lemma max0_nonneg (x : float) : fle zero (max0 x) = true.
Proof. unfold max0, fgt. by destruct x as [[]|[]| |[] m e]. Qed.

Lemma metrics_nonneg (names : list string) (predictions : list float) (r : metrics) :
  metric_classifier (VList (VStr <$> names)) predictions = Ok r ->
  forall b : bucket, fle zero (get_bucket b r) = true.
Proof.
  intros Hrun b.
  destruct (classify_loop_str predictions names 0 results0) as (r' & Hrun' & Hb).
  unfold metric_classifier in Hrun. cbn [py_iter mbind result_bind] in Hrun.
  rewrite Hrun' in Hrun. injection Hrun as <-.
  destruct (Hb b) as [[_ Hget] | (j & _ & _ & Hget)]; rewrite Hget.
  - by destruct b.
  - apply max0_nonneg.
Qed.

(** ** Order on floats *)

Lemma fle_trans (x y z : float) :
  fle x y = true -> fle y z = true -> fle x z = true.
Proof.
  unfold fle, SFleb.
  destruct x as [[]|[]| |[] mx ex], y as [[]|[]| |[] my ey], z as [[]|[]| |[] mz ez];
    simpl; try done; intros Hxy Hyz; compare_cases.
Qed.

Lemma fle_not_flt (x y : float) : fle x y = true -> flt y x = false.
Proof.
  unfold fle, flt, SFleb, SFltb.
  destruct x as [[]|[]| |[] mx ex], y as [[]|[]| |[] my ey];
    simpl; try done; intros Hxy; compare_cases.
Qed.

Lemma flt_above (c c' w : float) :
  fle c' c = true -> fle c w = true -> flt w c' = false.
Proof. intros H1 H2. apply fle_not_flt. by apply (fle_trans c' c w). Qed.

(** A float that is neither below nor at-or-above a float is not a
    number. *)
Lemma flt_fle_total (x y : float) :
  x <> S754_nan -> y <> S754_nan -> flt x y = true \/ fle y x = true.
Proof.
  unfold fle, flt, SFleb, SFltb.
  destruct x as [[]|[]| |[] mx ex], y as [[]|[]| |[] my ey];
    simpl; try tauto; intros _ _; compare_cases; tauto.
Qed.

(** ** Status *)

(** The five bands in terms of the comparisons of floats, for every
    weight, and the four boundaries. *)
Lemma determine_status_ieee (weight : float) :
  (flt weight (of_Z 40) = true -> determine_status weight = "Underweight"%string) /\
  (fle (of_Z 40) weight = true -> flt weight (of_Z 45) = true ->
   determine_status weight = "Low"%string) /\
  (fle (of_Z 45) weight = true -> flt weight (of_Z 55) = true ->
   determine_status weight = "Healthy"%string) /\
  (fle (of_Z 55) weight = true -> flt weight (of_Z 65) = true ->
   determine_status weight = "Good"%string) /\
  (fle (of_Z 65) weight = true -> determine_status weight = "Excellent"%string) /\
  determine_status (of_Z 40) = "Low"%string /\
  determine_status (of_Z 45) = "Healthy"%string /\
  determine_status (of_Z 55) = "Good"%string /\
  determine_status (of_Z 65) = "Excellent"%string.
Proof.
  split; [unfold determine_status; by intros ->|].
  split; [unfold determine_status; intros H40 ->; by rewrite (fle_not_flt _ _ H40)|].
  split.
  { unfold determine_status. intros H45 ->.
    by rewrite (flt_above (of_Z 45) (of_Z 40) weight eq_refl H45), (fle_not_flt _ _ H45). }
  split.
  { unfold determine_status. intros H55 ->.
    by rewrite (flt_above (of_Z 55) (of_Z 40) weight eq_refl H55),
      (flt_above (of_Z 55) (of_Z 45) weight eq_refl H55), (fle_not_flt _ _ H55). }
  split.
  { unfold determine_status. intros H65.
    by rewrite (flt_above (of_Z 65) (of_Z 40) weight eq_refl H65),
      (flt_above (of_Z 65) (of_Z 45) weight eq_refl H65),
      (flt_above (of_Z 65) (of_Z 55) weight eq_refl H65), (fle_not_flt _ _ H65). }
  repeat split; vm_compute; reflexivity.
Qed.

(** Every weight that is a number falls into one of the five bands; a
    weight that is not a number compares false with every threshold and
    is labelled "Excellent". *)
Lemma determine_status_cases (weight : float) :
  weight <> S754_nan ->
  flt weight (of_Z 40) = true \/
  (fle (of_Z 40) weight = true /\ flt weight (of_Z 45) = true) \/
  (fle (of_Z 45) weight = true /\ flt weight (of_Z 55) = true) \/
  (fle (of_Z 55) weight = true /\ flt weight (of_Z 65) = true) \/
  fle (of_Z 65) weight = true.
Proof.
  intros Hnan.
  destruct (flt_fle_total weight (of_Z 40) Hnan) as [H|H40]; [discriminate | tauto |].
  destruct (flt_fle_total weight (of_Z 45) Hnan) as [H|H45]; [discriminate | tauto |].
  destruct (flt_fle_total weight (of_Z 55) Hnan) as [H|H55]; [discriminate | tauto |].
  destruct (flt_fle_total weight (of_Z 65) Hnan) as [H|H65]; [discriminate | tauto |].
  tauto.
Qed.

Lemma determine_status_nan : determine_status S754_nan = "Excellent"%string.
Proof. reflexivity. Qed.

(** ** The numeric reading of the comparisons *)

Lemma digits2_pos_bounds (m : positive) :
  (2 ^ (Zpos (digits2_pos m) - 1) <= Zpos m < 2 ^ Zpos (digits2_pos m))%Z.
Proof.
  induction m as [m IH|m IH|]; cbn [digits2_pos].
  - rewrite Pos2Z.inj_succ, Z.pow_succ_r by lia.
    replace (Z.succ (Zpos (digits2_pos m)) - 1)%Z with (Z.succ (Zpos (digits2_pos m) - 1)) by lia.
    rewrite Z.pow_succ_r by lia. lia.
  - rewrite Pos2Z.inj_succ, Z.pow_succ_r by lia.
    replace (Z.succ (Zpos (digits2_pos m)) - 1)%Z with (Z.succ (Zpos (digits2_pos m) - 1)) by lia.
    rewrite Z.pow_succ_r by lia. lia.
  - simpl. lia.
Qed.

(** A finite binary64 value: its exponent is at least -1074, its mantissa
    has at most 53 bits, and exactly 53 above the least exponent. *)
Lemma valid_finite (s : bool) (m : positive) (e : Z) :
  valid (S754_finite s m e) = true ->
  (-1074 <= e /\ Zpos m < 2 ^ 53 /\ (-1074 < e -> 2 ^ 52 <= Zpos m))%Z.
Proof.
  unfold valid, valid_binary, bounded, canonical_mantissa, fexp, emin, prec, emax.
  intros H. apply andb_true_iff in H as [H _]. apply Z.eqb_eq in H.
  pose proof (digits2_pos_bounds m) as [Hlo Hhi].
  set (d := Zpos (digits2_pos m)) in *.
  assert (Hd : (0 < d)%Z) by (subst d; lia).
  destruct (Z.max_spec (d + e - 53) (3 - 1024 - 53)) as [[Hlt Hmax]|[Hle Hmax]];
    rewrite Hmax in H.
  - split; [lia|]. split; [|lia].
    eapply Z.lt_le_trans; [exact Hhi|]. apply Z.pow_le_mono_r; lia.
  - assert (d = 53%Z) as Hd53 by lia. rewrite Hd53 in *.
    split; [lia|]. split; [exact Hhi|]. intros _. exact Hlo.
Qed.

Lemma compare_scaled (m1 m2 : positive) (e1 e2 : Z) :
  (-1074 <= e1)%Z -> (-1074 <= e2)%Z ->
  (Zpos m1 < 2 ^ 53)%Z -> (Zpos m2 < 2 ^ 53)%Z ->
  (-1074 < e1 -> 2 ^ 52 <= Zpos m1)%Z -> (-1074 < e2 -> 2 ^ 52 <= Zpos m2)%Z ->
  match (e1 ?= e2)%Z with
  | Lt => Lt
  | Gt => Gt
  | Eq => Pos.compare_cont Eq m1 m2
  end = (Zpos m1 * 2 ^ (e1 + 1074) ?= Zpos m2 * 2 ^ (e2 + 1074))%Z.
Proof.
  intros He1 He2 Hm1 Hm2 Hn1 Hn2.
  change (2 ^ 53)%Z with 9007199254740992%Z in *.
  change (2 ^ 52)%Z with 4503599627370496%Z in *.
  assert (Hshift : forall a k, (0 <= a)%Z -> (0 < k)%Z ->
            exists P K, (2 ^ a = P /\ 2 ^ (a + k) = P * K /\ 0 < P /\ 2 <= K)%Z).
  { intros a k Ha Hk. exists (2 ^ a)%Z, (2 ^ k)%Z.
    rewrite Z.pow_add_r by lia. split; [done|]. split; [done|]. split; [lia|].
    change 2%Z with (2 ^ 1)%Z at 1. apply Z.pow_le_mono_r; lia. }
  symmetry. destruct (Z.compare_spec e1 e2) as [->|Hlt|Hgt].
  - change (Pos.compare_cont Eq m1 m2) with (Zpos m1 ?= Zpos m2)%Z.
    assert (0 < 2 ^ (e2 + 1074))%Z by lia.
    destruct (Z.compare_spec (Zpos m1) (Zpos m2)) as [Heq|Hl|Hg].
    + rewrite Heq. apply Z.compare_refl.
    + apply Z.compare_lt_iff. nia.
    + apply Z.compare_gt_iff. nia.
  - destruct (Hshift (e1 + 1074)%Z (e2 - e1)%Z) as (P & K & HP & HK & HP0 & HK2); [lia..|].
    replace (e1 + 1074 + (e2 - e1))%Z with (e2 + 1074)%Z in HK by lia.
    rewrite HP, HK. apply Z.compare_lt_iff.
    assert (4503599627370496 <= Zpos m2)%Z by (apply Hn2; lia). nia.
  - destruct (Hshift (e2 + 1074)%Z (e1 - e2)%Z) as (P & K & HP & HK & HP0 & HK2); [lia..|].
    replace (e2 + 1074 + (e1 - e2))%Z with (e1 + 1074)%Z in HK by lia.
    rewrite HP, HK. apply Z.compare_gt_iff.
    assert (4503599627370496 <= Zpos m1)%Z by (apply Hn1; lia). nia.
Qed.

(** On finite binary64 values the comparison of floats is the comparison
    of the numbers they denote. *)
Lemma SFcompare_ticks (x y : float) :
  valid x = true -> valid y = true -> is_finite x = true -> is_finite y = true ->
  SFcompare x y = Some (ticks x ?= ticks y)%Z.
Proof.
  intros Hx Hy Hfx Hfy.
  destruct x as [sx|sx| |sx mx ex]; try discriminate;
    destruct y as [sy|sy| |sy my ey]; try discriminate.
  - reflexivity.
  - apply valid_finite in Hy as (He & _ & _).
    assert (0 < Zpos my * 2 ^ (ey + 1074))%Z by (apply Z.mul_pos_pos; lia).
    unfold ticks, cond_Zopp. destruct sy; cbn [SFcompare]; f_equal; symmetry.
    + apply Z.compare_gt_iff. lia.
    + apply Z.compare_lt_iff. lia.
  - apply valid_finite in Hx as (He & _ & _).
    assert (0 < Zpos mx * 2 ^ (ex + 1074))%Z by (apply Z.mul_pos_pos; lia).
    unfold ticks, cond_Zopp. destruct sx; cbn [SFcompare]; f_equal; symmetry.
    + apply Z.compare_lt_iff. lia.
    + apply Z.compare_gt_iff. lia.
  - apply valid_finite in Hx as (Hex & Hmx & Hnx).
    apply valid_finite in Hy as (Hey & Hmy & Hny).
    assert (0 < Zpos mx * 2 ^ (ex + 1074))%Z by (apply Z.mul_pos_pos; lia).
    assert (0 < Zpos my * 2 ^ (ey + 1074))%Z by (apply Z.mul_pos_pos; lia).
    pose proof (compare_scaled mx my ex ey Hex Hey Hmx Hmy Hnx Hny) as Hc.
    pose proof (compare_scaled my mx ey ex Hey Hex Hmy Hmx Hny Hnx) as Hc'.
    unfold ticks, cond_Zopp. destruct sx, sy; cbn [SFcompare]; f_equal.
    + rewrite Z.compare_opp, <- Hc'.
      rewrite (Z.compare_antisym ex ey), (Pos.compare_cont_antisym mx my Eq).
      by destruct (ex ?= ey)%Z.
    + symmetry. apply Z.compare_lt_iff. lia.
    + symmetry. apply Z.compare_gt_iff. lia.
    + exact Hc.
Qed.

Lemma flt_ticks (x y : float) :
  valid x = true -> valid y = true -> is_finite x = true -> is_finite y = true ->
  flt x y = true <-> (ticks x < ticks y)%Z.
Proof.
  intros Hx Hy Hfx Hfy. unfold flt, SFltb. rewrite (SFcompare_ticks x y) by done.
  destruct (Z.compare_spec (ticks x) (ticks y)); split; (done || lia).
Qed.

Lemma fle_ticks (x y : float) :
  valid x = true -> valid y = true -> is_finite x = true -> is_finite y = true ->
  fle x y = true <-> (ticks x <= ticks y)%Z.
Proof.
  intros Hx Hy Hfx Hfy. unfold fle, SFleb. rewrite (SFcompare_ticks x y) by done.
  destruct (Z.compare_spec (ticks x) (ticks y)); split; (done || lia).
Qed.

Lemma ticks_of_Z (n : Z) :
  In n [0; 40; 45; 55; 65]%Z ->
  valid (of_Z n) = true /\ is_finite (of_Z n) = true /\
  ticks (of_Z n) = (n * unit_ticks)%Z.
Proof.
  intros H. repeat (destruct H as [<-|H]; [vm_compute; repeat split|]). destruct H.
Qed.

Lemma flt_threshold (weight : float) (n : Z) :
  valid weight = true -> is_finite weight = true ->
  In n [0; 40; 45; 55; 65]%Z ->
  if flt weight (of_Z n) then (ticks weight < n * unit_ticks)%Z
  else (n * unit_ticks <= ticks weight)%Z.
Proof.
  intros Hv Hf Hn. destruct (ticks_of_Z n Hn) as (Hvn & Hfn & <-).
  pose proof (flt_ticks weight (of_Z n) Hv Hvn Hf Hfn) as H.
  destruct (flt weight (of_Z n)).
  - by apply H.
  - apply Z.nlt_ge. intros Hlt. by apply H in Hlt.
Qed.

(** The status by the number the weight denotes: a finite weight, counted
    in units of 2^-1074, is labelled by the band its value lies in. *)
Lemma determine_status_by_value (weight : float) :
  valid weight = true -> is_finite weight = true ->
  ((ticks weight < 40 * unit_ticks)%Z ->
   determine_status weight = "Underweight"%string) /\
  ((40 * unit_ticks <= ticks weight < 45 * unit_ticks)%Z ->
   determine_status weight = "Low"%string) /\
  ((45 * unit_ticks <= ticks weight < 55 * unit_ticks)%Z ->
   determine_status weight = "Healthy"%string) /\
  ((55 * unit_ticks <= ticks weight < 65 * unit_ticks)%Z ->
   determine_status weight = "Good"%string) /\
  ((65 * unit_ticks <= ticks weight)%Z ->
   determine_status weight = "Excellent"%string).
Proof.
  intros Hv Hf.
  pose proof (flt_threshold weight 40 Hv Hf ltac:(simpl; tauto)) as H40.
  pose proof (flt_threshold weight 45 Hv Hf ltac:(simpl; tauto)) as H45.
  pose proof (flt_threshold weight 55 Hv Hf ltac:(simpl; tauto)) as H55.
  pose proof (flt_threshold weight 65 Hv Hf ltac:(simpl; tauto)) as H65.
  assert (HU : (0 < unit_ticks)%Z) by (apply Z.pow_pos_nonneg; lia).
  unfold determine_status.
  generalize dependent unit_ticks. intros U H40 H45 H55 H65 HU.
  destruct (flt weight (of_Z 40)), (flt weight (of_Z 45)), (flt weight (of_Z 55)),
    (flt weight (of_Z 65)); repeat split; intros Hw; try reflexivity; lia.
Qed.

(** C3. The status label is the five-band classification of the weight,
    each boundary belonging to the band above it: in terms of the
    comparisons of floats for every weight, and in terms of the number it
    denotes for every finite one. *)
Theorem determine_status_bands (weight : float) :
  ((flt weight (of_Z 40) = true -> determine_status weight = "Underweight"%string) /\
   (fle (of_Z 40) weight = true -> flt weight (of_Z 45) = true ->
    determine_status weight = "Low"%string) /\
   (fle (of_Z 45) weight = true -> flt weight (of_Z 55) = true ->
    determine_status weight = "Healthy"%string) /\
   (fle (of_Z 55) weight = true -> flt weight (of_Z 65) = true ->
    determine_status weight = "Good"%string) /\
   (fle (of_Z 65) weight = true -> determine_status weight = "Excellent"%string)) /\
  (determine_status (of_Z 40) = "Low"%string /\
   determine_status (of_Z 45) = "Healthy"%string /\
   determine_status (of_Z 55) = "Good"%string /\
   determine_status (of_Z 65) = "Excellent"%string) /\
  (valid weight = true -> is_finite weight = true ->
   ((ticks weight < 40 * unit_ticks)%Z ->
    determine_status weight = "Underweight"%string) /\
   ((40 * unit_ticks <= ticks weight < 45 * unit_ticks)%Z ->
    determine_status weight = "Low"%string) /\
   ((45 * unit_ticks <= ticks weight < 55 * unit_ticks)%Z ->
    determine_status weight = "Healthy"%string) /\
   ((55 * unit_ticks <= ticks weight < 65 * unit_ticks)%Z ->
    determine_status weight = "Good"%string) /\
   ((65 * unit_ticks <= ticks weight)%Z ->
    determine_status weight = "Excellent"%string)).
Proof.
  pose proof (determine_status_ieee weight) as (H1 & H2 & H3 & H4 & H5 & H6).
  split; [tauto|]. split; [exact H6|]. apply determine_status_by_value.
Qed.

Lemma determine_status_bands_witness :
  determine_status (of_decimal 3999 2) = "Underweight"%string /\
  determine_status (of_Z 42) = "Low"%string /\
  determine_status (of_decimal 5499 2) = "Healthy"%string /\
  determine_status (of_Z 60) = "Good"%string /\
  determine_status (of_Z 70) = "Excellent"%string /\
  determine_status (of_decimal 6499 2) = "Good"%string.
Proof.
  split; [|split; [|split; [|split; [|split]]]].
  - apply (proj1 (proj1 (determine_status_bands (of_decimal 3999 2)))). reflexivity.
  - apply (proj1 (proj2 (proj1 (determine_status_bands (of_Z 42))))); reflexivity.
  - apply (proj1 (proj2 (proj2 (proj1 (determine_status_bands (of_decimal 5499 2))))));
      reflexivity.
  - apply (proj1 (proj2 (proj2 (proj2 (proj1 (determine_status_bands (of_Z 60)))))));
      reflexivity.
  - apply (proj2 (proj2 (proj2 (proj2 (proj1 (determine_status_bands (of_Z 70)))))));
      reflexivity.
  - apply (proj1 (proj2 (proj2 (proj2
             (proj2 (proj2 (determine_status_bands (of_decimal 6499 2)))
                eq_refl eq_refl))))).
    vm_compute. split; [intros H; discriminate H | reflexivity].
Defined.
(** ** Carcass composition *)

(** The divisions of the composition never divide by zero. *)
Lemma positive_not_zero (x : float) : fgt x (of_Z 0) = true -> feq x zero = false.
Proof. by destruct x as [[]|[]| |[] mx ex]. Qed.

Lemma fle_zero_not_fgt (x : float) : fle x (of_Z 0) = true -> fgt x (of_Z 0) = false.
Proof. apply fle_not_flt. Qed.

(** The composition by the number the carcass weight denotes: the ratios
    are computed exactly when that number is positive. *)
Lemma carcass_weight_positive (x : float) :
  valid x = true -> is_finite x = true ->
  fgt x (of_Z 0) = true <-> (0 < ticks x)%Z.
Proof.
  intros Hv Hf. unfold fgt. change (SFltb (of_Z 0) x) with (flt (of_Z 0) x).
  by rewrite (flt_ticks (of_Z 0) x).
Qed.

(** C2. When carcass_weight is above 0, lean_pct is lean_mass /
    carcass_weight * 100 and fat_pct is fat_mass / carcass_weight * 100,
    and other_pct is 0 when lean_mass + fat_mass exceeds carcass_weight
    and 100 - (lean_pct + fat_pct) otherwise; when carcass_weight is at
    most 0, the three percentages are 0 whatever the masses. *)
Theorem carcass_details_spec (m : metrics) :
  let lean_pct' := fmul (fdiv (lean_mass m) (carcass_weight m)) (of_Z 100) in
  let fat_pct' := fmul (fdiv (fat_mass m) (carcass_weight m)) (of_Z 100) in
  (fgt (carcass_weight m) (of_Z 0) = true ->
     lean_pct (carcass_details m) = PFloat lean_pct' /\
     fat_pct (carcass_details m) = PFloat fat_pct' /\
     (fgt (fadd (lean_mass m) (fat_mass m)) (carcass_weight m) = true ->
      other_pct (carcass_details m) = PFloat zero) /\
     (fgt (fadd (lean_mass m) (fat_mass m)) (carcass_weight m) = false ->
      other_pct (carcass_details m) = PFloat (fsub (of_Z 100) (fadd lean_pct' fat_pct')))) /\
  (fle (carcass_weight m) (of_Z 0) = true ->
     carcass_details m = mkComposition (PInt 0) (PInt 0) (PInt 0)).
Proof.
  intros lean_pct' fat_pct'. unfold carcass_details. split.
  - intros ->. cbn [lean_pct fat_pct other_pct].
    repeat split; by intros ->.
  - intros H. by rewrite (fle_zero_not_fgt _ H).
Qed.

Lemma carcass_details_spec_witness :
  (let c := carcass_details (mkMetrics zero (of_Z 30) (of_Z 30) (of_Z 50)) in
   lean_pct c = PFloat (of_Z 60) /\ fat_pct c = PFloat (of_Z 60) /\
   other_pct c = PFloat zero) /\
  (let c := carcass_details (mkMetrics zero (of_Z 20) (of_Z 10) (of_Z 40)) in
   lean_pct c = PFloat (of_Z 50) /\ fat_pct c = PFloat (of_Z 25) /\
   other_pct c = PFloat (of_Z 25)) /\
  carcass_details (mkMetrics zero (of_Z 20) (of_Z 10) zero) =
    mkComposition (PInt 0) (PInt 0) (PInt 0).
Proof.
  split; [|split].
  - pose proof (proj1 (carcass_details_spec (mkMetrics zero (of_Z 30) (of_Z 30) (of_Z 50)))
                  eq_refl) as (H1 & H2 & H3 & _).
    specialize (H3 eq_refl).
    cbv zeta. split; [rewrite H1 | split; [rewrite H2 | rewrite H3]]; vm_compute; reflexivity.
  - pose proof (proj1 (carcass_details_spec (mkMetrics zero (of_Z 20) (of_Z 10) (of_Z 40)))
                  eq_refl) as (H1 & H2 & _ & H4).
    specialize (H4 eq_refl).
    cbv zeta. split; [rewrite H1 | split; [rewrite H2 | rewrite H4]]; vm_compute; reflexivity.
  - apply (proj2 (carcass_details_spec (mkMetrics zero (of_Z 20) (of_Z 10) zero))).
    reflexivity.
Defined.

(** ** Dictionaries *)

Section DictFacts.
Context {V : Type}.
Implicit Types (d : list (string * V)) (k : string) (v : V).

Lemma dict_get_set_eq d k v : Dict.get (Dict.set d k v) k = Some v.
Proof.
  induction d as [|[k' v'] d IH]; simpl.
  - by rewrite String.eqb_refl.
  - destruct (String.eqb_spec k' k) as [->|Hne]; simpl.
    + by rewrite String.eqb_refl.
    + by rewrite (proj2 (String.eqb_neq k' k) Hne).
Qed.

Lemma dict_get_set_ne d k k' v :
  k <> k' -> Dict.get (Dict.set d k v) k' = Dict.get d k'.
Proof.
  intros Hne. induction d as [|[k0 v0] d IH]; simpl.
  - by rewrite (proj2 (String.eqb_neq k k') Hne).
  - destruct (String.eqb_spec k0 k) as [->|Hk]; simpl.
    + by rewrite (proj2 (String.eqb_neq k k') Hne).
    + by rewrite IH.
Qed.

Lemma dict_get_none d k : Dict.get d k = None <-> k ∉ Dict.keys d.
Proof.
  unfold Dict.keys. induction d as [|[k' v'] d IH]; simpl.
  - split; [intros _; apply not_elem_of_nil | done].
  - rewrite not_elem_of_cons, <- IH.
    destruct (String.eqb_spec k' k) as [->|Hne]; split;
      [done | by intros [? _] | intros ?; split; [congruence | done] | by intros [_ ?]].
Qed.

Lemma dict_set_fresh d k v : k ∉ Dict.keys d -> Dict.set d k v = d ++ [(k, v)].
Proof.
  unfold Dict.keys. induction d as [|[k' v'] d IH]; simpl; [done|].
  rewrite not_elem_of_cons. intros [Hne Hnotin].
  rewrite (proj2 (String.eqb_neq k' k)) by congruence.
  by rewrite IH.
Qed.

Lemma dict_keys_set d k v :
  Dict.keys (Dict.set d k v) =
  if Dict.mem d k then Dict.keys d else Dict.keys d ++ [k].
Proof.
  unfold Dict.keys, Dict.mem. induction d as [|[k' v'] d IH]; [done|].
  cbn [Dict.set Dict.get].
  destruct (String.eqb_spec k' k) as [->|Hne]; [done|].
  rewrite !fmap_cons, IH. by destruct (Dict.get d k).
Qed.

Lemma dict_wf_set d k v : Dict.wf d -> Dict.wf (Dict.set d k v).
Proof.
  unfold Dict.wf. intros Hwf. rewrite dict_keys_set. unfold Dict.mem.
  destruct (Dict.get d k) eqn:Hget; [done|].
  apply dict_get_none in Hget.
  apply NoDup_app. split; [done|]. split.
  - intros x Hx Hk. apply list_elem_of_singleton in Hk. by subst.
  - apply NoDup_singleton.
Qed.
End DictFacts.

(** ** The key remapper *)

Section Remap.
Context {V : Type}.
Implicit Types (d acc : list (string * V)) (k key : string) (v : V).

Lemma remap_step_new_key acc key v :
  remap_step acc (key, v) =
  match new_key_of key with
  | Some k => Dict.set acc k v
  | None => acc
  end.
Proof.
  unfold remap_step, new_key_of.
  destruct (startswith key "cnn."); [done|].
  by destruct (negb (startswith key "tab_mlp") && negb (startswith key "final_head")).
Qed.

Lemma remap_snoc d (x : string * V) : remap (d ++ [x]) = remap_step (remap d) x.
Proof. unfold remap. by rewrite foldl_app. Qed.

Lemma remap_wf d : Dict.wf (remap d).
Proof.
  induction d as [|[key v] d IH] using rev_ind.
  - apply NoDup_nil_2.
  - rewrite remap_snoc, remap_step_new_key.
    destruct (new_key_of key); [by apply dict_wf_set | done].
Qed.

(** The entry kept under a name is the last one, in the order of the
    source mapping, that the remapper sends to that name. *)
Lemma remap_lookup d k :
  Dict.get (remap d) k =
  snd <$> last (List.filter (fun kv => bool_decide (new_key_of kv.1 = Some k)) d).
Proof.
  induction d as [|[key v] d IH] using rev_ind; [done|].
  rewrite remap_snoc, remap_step_new_key, List.filter_app. simpl.
  destruct (new_key_of key) as [k'|] eqn:Hk.
  - destruct (decide (k' = k)) as [->|Hne].
    + rewrite bool_decide_eq_true_2 by done.
      by rewrite dict_get_set_eq, last_snoc.
    + rewrite bool_decide_eq_false_2 by congruence.
      by rewrite dict_get_set_ne, app_nil_r.
  - rewrite bool_decide_eq_false_2 by congruence. by rewrite app_nil_r.
Qed.

Lemma new_key_of_canonical key : canonical key -> new_key_of key = Some key.
Proof. unfold canonical, new_key_of. by intros (-> & -> & ->). Qed.

Lemma foldl_remap_canonical d : forall acc,
  Forall (fun kv => canonical kv.1) d ->
  NoDup (Dict.keys acc ++ Dict.keys d) ->
  foldl remap_step acc d = acc ++ d.
Proof.
  induction d as [|[key v] d IH]; intros acc Hcan Hnd; cbn [foldl].
  - by rewrite app_nil_r.
  - inversion Hcan as [|? ? Hkey Hrest]; subst. simpl in Hkey.
    rewrite remap_step_new_key, (new_key_of_canonical _ Hkey).
    unfold Dict.keys in *. simpl in Hnd.
    apply NoDup_app in Hnd as (Hacc & Hdisj & Hd).
    apply NoDup_cons in Hd as [Hkd Hd].
    rewrite dict_set_fresh.
    + rewrite IH; [by rewrite <- app_assoc | done |].
      unfold Dict.keys. rewrite fmap_app. simpl.
      apply NoDup_app. split; [|split; [|done]].
      * apply NoDup_app. split; [done|]. split; [|apply NoDup_singleton].
        intros x Hx Hk. apply list_elem_of_singleton in Hk. subst.
        apply (Hdisj key Hx). by left.
      * intros x Hx Hxd. apply elem_of_app in Hx as [Hx|Hx].
        -- apply (Hdisj x Hx). by right.
        -- apply list_elem_of_singleton in Hx. by subst.
    + intros Hin. apply (Hdisj key Hin). by left.
Qed.
End Remap.

(** C4. A name that starts with "cnn." and contains "cnn." once more
    loses both occurrences, where stripping the prefix would keep the
    second: the entry is kept under another name than the stripped one. *)
Theorem remap_removes_inner_occurrence (V : Type) (value : V) :
  startswith "cnn.layer1.cnn.weight" "cnn." = true /\
  strip_prefix "cnn.layer1.cnn.weight" "cnn." = "layer1.cnn.weight"%string /\
  remap [("cnn.layer1.cnn.weight"%string, value)] = [("layer1.weight"%string, value)] /\
  Dict.get (remap [("cnn.layer1.cnn.weight"%string, value)]) "layer1.cnn.weight" = None.
Proof. repeat split. Qed.

(** C9 (amended). Remapping a mapping whose names are all canonical
    gives the mapping back; remapping the output of the remapper changes
    nothing when every name of that output is canonical. *)
Theorem remap_canonical_noop (V : Type) (state_dict : list (string * V)) :
  (Dict.wf state_dict ->
   Forall (fun kv => canonical kv.1) state_dict ->
   remap state_dict = state_dict) /\
  (Forall (fun kv => canonical kv.1) (remap state_dict) ->
   remap (remap state_dict) = remap state_dict).
Proof.
  assert (Hnoop : forall d : list (string * V),
             Dict.wf d -> Forall (fun kv => canonical kv.1) d -> remap d = d).
  { intros d Hwf Hcan. unfold remap. by rewrite foldl_remap_canonical. }
  split; [apply Hnoop|]. intros Hcan. apply Hnoop; [apply remap_wf | done].
Qed.

Lemma remap_canonical_noop_witness :
  remap [("layer1.0.conv1.weight"%string, 1%nat); ("fc.bias"%string, 2%nat)] =
    [("layer1.0.conv1.weight"%string, 1%nat); ("fc.bias"%string, 2%nat)] /\
  remap (remap [("cnn.conv1.weight"%string, 1%nat); ("final_head.w"%string, 2%nat)]) =
    remap [("cnn.conv1.weight"%string, 1%nat); ("final_head.w"%string, 2%nat)].
Proof.
  split.
  - apply (proj1 (remap_canonical_noop nat _)).
    + unfold Dict.wf. simpl. apply NoDup_cons. split.
      * intros H. apply list_elem_of_singleton in H. discriminate.
      * apply NoDup_singleton.
    + repeat constructor.
  - apply (proj2 (remap_canonical_noop nat _)). repeat constructor.
Defined.

(** Counterexample to C9 as worded: the name left by stripping
    the backbone prefix can be the name of a non-backbone branch, which a
    second remapping drops. *)
Lemma remap_not_idempotent_counterexample :
  ~ (forall state_dict : list (string * nat),
       Dict.wf state_dict -> remap (remap state_dict) = remap state_dict).
Proof.
  intros H. specialize (H [("cnn.tab_mlp.0.weight"%string, 1%nat)]).
  discriminate H. apply NoDup_singleton.
Qed.

(** Where "cnn." occurs only as the prefix, removing every occurrence
    and stripping the prefix agree. *)
Lemma remove_from_skip (old : string) (s : string) : forall k : nat,
  remove_from old k s = remove_from old 0 (string_drop k s).
Proof.
  induction s as [|c s IH]; intros [|k]; try reflexivity.
  cbn [remove_from string_drop]. apply IH.
Qed.

Lemma remove_from_absent (old s : string) :
  str_in old s = false -> remove_from old 0 s = s.
Proof.
  induction s as [|c s IH]; [done|].
  cbn [str_in remove_from]. intros H. apply orb_false_elim in H as [H1 H2].
  by rewrite H1, IH.
Qed.

Lemma new_key_of_single_prefix (key : string) :
  startswith key "cnn." = true ->
  str_in "cnn." (strip_prefix key "cnn.") = false ->
  new_key_of key = Some (strip_prefix key "cnn.").
Proof.
  intros Hpre Hrest. unfold new_key_of, replace_empty. rewrite Hpre. f_equal.
  destruct key as [|c key]; [discriminate|].
  cbn [remove_from]. rewrite Hpre, remove_from_skip.
  by apply remove_from_absent.
Qed.

(** ** The checkpoint loader *)

Lemma py_get_absent (d : list (string * pyval)) (k : string) :
  Dict.mem d k = false -> py_get d k = VNone.
Proof. unfold Dict.mem, py_get. by destruct (Dict.get d k). Qed.

Lemma dict_get_size (d : list (string * pyval)) (k : string) (v : pyval) :
  Dict.get d k = Some v -> pyval_size v < pyval_size (VDict d).
Proof.
  cbn [pyval_size]. induction d as [|[k' v'] d IH]; [done|].
  cbn [Dict.get foldr snd]. destruct (String.eqb k' k).
  - intros [= ->]. lia.
  - intros H. specialize (IH H). lia.
Qed.

Lemma py_get_not_container (d : list (string * pyval)) (k : string) :
  py_get d k <> VDict d.
Proof.
  unfold py_get. destruct (Dict.get d k) as [v|] eqn:Hget; [|done].
  intros Heq. apply dict_get_size in Hget. simpl in Heq. rewrite Heq in Hget. lia.
Qed.

Lemma locate_whole_container (d : list (string * pyval)) :
  locate_state_dict (VDict d) = Ok (VDict d) <->
  py_truthy (py_get d "state_dict") = Ok false /\
  py_truthy (py_get d "model_state_dict") = Ok false.
Proof.
  unfold locate_state_dict, py_or.
  destruct (py_truthy (py_get d "state_dict")) as [[]|e] eqn:H1;
    cbn [mbind result_bind mret result_ret].
  - rewrite H1. cbn [mbind result_bind mret result_ret]. split.
    + intros [= H]. by destruct (py_get_not_container d "state_dict").
    + by intros [? _].
  - destruct (py_truthy (py_get d "model_state_dict")) as [[]|e] eqn:H2;
      cbn [mbind result_bind mret result_ret].
    + split.
      * intros [= H]. by destruct (py_get_not_container d "model_state_dict").
      * by intros [_ ?].
    + done.
    + split; [done | by intros [_ ?]].
  - split; [done | by intros [? _]].
Qed.

(** C8 (amended). In a container the parameter mapping is the value of
    "state_dict" when that value is truthy, else the value of
    "model_state_dict" when that one is truthy, else the whole container:
    the whole container exactly when neither field holds a truthy value,
    which is so when neither field is present, and also when a field that
    is present holds a falsy value.  Any other checkpoint gives its
    [state_dict()]. *)
Theorem locate_state_dict_spec (checkpoint : pyval) :
  (forall d, checkpoint = VDict d ->
     (py_truthy (py_get d "state_dict") = Ok true ->
      locate_state_dict checkpoint = Ok (py_get d "state_dict")) /\
     (py_truthy (py_get d "state_dict") = Ok false ->
      py_truthy (py_get d "model_state_dict") = Ok true ->
      locate_state_dict checkpoint = Ok (py_get d "model_state_dict")) /\
     (locate_state_dict checkpoint = Ok checkpoint <->
      py_truthy (py_get d "state_dict") = Ok false /\
      py_truthy (py_get d "model_state_dict") = Ok false) /\
     (Dict.mem d "state_dict" = false -> Dict.mem d "model_state_dict" = false ->
      locate_state_dict checkpoint = Ok checkpoint)) /\
  (forall sd, checkpoint = VModule sd ->
     locate_state_dict checkpoint = Ok (VDict (prod_map id VTensor <$> sd))) /\
  ((forall d, checkpoint <> VDict d) ->
   locate_state_dict checkpoint = py_state_dict checkpoint).
Proof.
  split; [|split].
  - intros d ->. split; [|split; [|split]].
    + intros H1. unfold locate_state_dict, py_or.
      rewrite H1. cbn [mbind result_bind mret result_ret]. by rewrite H1.
    + intros H1 H2. unfold locate_state_dict, py_or.
      rewrite H1. cbn [mbind result_bind mret result_ret]. by rewrite H2.
    + apply locate_whole_container.
    + intros H1 H2. apply locate_whole_container. by rewrite !py_get_absent.
  - by intros sd ->.
  - intros H. destruct checkpoint; try reflexivity. by destruct (H d).
Qed.

Lemma locate_state_dict_spec_witness :
  locate_state_dict (VDict [("model_state_dict"%string, example_checkpoint)]) =
    Ok example_checkpoint /\
  locate_state_dict example_checkpoint = Ok example_checkpoint /\
  locate_state_dict (VModule [("bn1.weight"%string, example_tensor)]) =
    Ok (VDict [("bn1.weight"%string, VTensor example_tensor)]).
Proof.
  split; [|split].
  - exact (proj1 (proj2 (proj1 (locate_state_dict_spec
             (VDict [("model_state_dict"%string, example_checkpoint)])) _ eq_refl))
             eq_refl eq_refl).
  - exact (proj2 (proj2 (proj2 (proj1 (locate_state_dict_spec example_checkpoint)
             _ eq_refl))) eq_refl eq_refl).
  - exact (proj1 (proj2 (locate_state_dict_spec
             (VModule [("bn1.weight"%string, example_tensor)]))) _ eq_refl).
Defined.

(** Counterexample to C8 as worded: a container whose
    "state_dict" field is present and holds an empty mapping is itself
    taken as the parameter mapping. *)
Lemma locate_state_dict_counterexample :
  ~ (forall d : list (string * pyval),
       locate_state_dict (VDict d) = Ok (VDict d) ->
       Dict.mem d "state_dict" = false /\ Dict.mem d "model_state_dict" = false).
Proof.
  intros H. destruct (H [("state_dict"%string, VDict [])] eq_refl) as [H1 _].
  discriminate H1.
Qed.

(** ** Failed loads *)

(** C7 (amended). A load whose checkpoint source does not exist or does
    not deserialize returns [False] without raising, logs the failure and
    leaves the globals, the availability flag among them, as they were. *)
Theorem failed_load_keeps_globals (E : env) (g : globals) (l : log) :
  (path_exists E = false ->
   load_model E (g, l) = ((g, l ++ [(WARNING, "Model file not found"%string)]), Ok false)) /\
  (path_exists E = true -> forall e, torch_load E = Raise e ->
   load_model E (g, l) =
     ((g, l ++ [(INFO, "Loading Model"%string); (ERROR, "Error loading model"%string);
                (ERROR, "traceback"%string)]), Ok false)).
Proof.
  unfold load_model. split.
  - intros ->. reflexivity.
  - intros -> e He. unfold try_except, load_model_body.
    cbn [negb]. unfold mbind, M_bind, mret, M_ret, logger, lift. cbn [fst snd].
    rewrite He. cbn [fst snd]. by rewrite <- !app_assoc.
Qed.

Lemma failed_load_keeps_globals_witness :
  load_model (example_env false (Ok example_checkpoint)) (initial_globals, []) =
    ((initial_globals, [(WARNING, "Model file not found"%string)]), Ok false) /\
  model_loaded
    (load_model (example_env true (Raise (OtherException "bad pickle")))
       (initial_globals, [])).1.1 = false.
Proof.
  split.
  - exact (proj1 (failed_load_keeps_globals
                    (example_env false (Ok example_checkpoint)) initial_globals [])
             eq_refl).
  - exact (f_equal (fun x : globals * log * result bool => model_loaded x.1.1)
             (proj2 (failed_load_keeps_globals
                       (example_env true (Raise (OtherException "bad pickle")))
                       initial_globals [])
                eq_refl _ eq_refl)).
Defined.

(** Counterexample to C7 as worded: a failed load that follows a
    successful one leaves the availability flag true. *)
Lemma failed_reload_counterexample :
  ~ (forall (E : env) (g : globals) (l : log),
       path_exists E = false -> model_loaded (load_model E (g, l)).1.1 = false).
Proof.
  intros H.
  specialize (H (example_env false (Ok example_checkpoint))
                (load_model (example_env true (Ok example_checkpoint))
                   (initial_globals, [])).1.1 [] eq_refl).
  vm_compute in H. discriminate H.
Qed.

(** ** What a load leaves of the target vector *)

Lemma keeps_ret {A : Type} (a : A) : keeps_target_names (mret a).
Proof. by intros s. Qed.

Lemma keeps_bind {A B : Type} (c : M A) (f : A -> M B) :
  keeps_target_names c -> (forall a, keeps_target_names (f a)) ->
  keeps_target_names (c ≫= f).
Proof.
  intros Hc Hf s. unfold mbind, M_bind. specialize (Hc s).
  destruct (c s) as [s' [a|e]]; [|done].
  rewrite <- Hc. apply Hf.
Qed.

Lemma keeps_try {A : Type} (c : M A) (h : exn -> M A) :
  keeps_target_names c -> (forall e, keeps_target_names (h e)) ->
  keeps_target_names (try_except c h).
Proof.
  intros Hc Hh s. unfold try_except. specialize (Hc s).
  destruct (c s) as [s' [a|e]]; [done|].
  rewrite <- Hc. apply Hh.
Qed.

Lemma keeps_lift {A : Type} (r : result A) : keeps_target_names (lift r).
Proof. by intros s. Qed.

Lemma keeps_bind_ok {A B : Type} (a : A) (f : A -> M B) :
  keeps_target_names (f a) -> keeps_target_names (lift (Ok a) ≫= f).
Proof. intros Hf s. apply Hf. Qed.

Lemma keeps_gets {A : Type} (f : globals -> A) : keeps_target_names (gets f).
Proof. by intros s. Qed.

Lemma keeps_logger (lv : level) (msg : string) : keeps_target_names (logger lv msg).
Proof. by intros s. Qed.

Lemma keeps_set_model (m : option net) : keeps_target_names (set_model m).
Proof. by intros s. Qed.

Lemma keeps_set_model_loaded (b : bool) : keeps_target_names (set_model_loaded b).
Proof. by intros s. Qed.

Lemma keeps_set_output_scaler (v : pyval) : keeps_target_names (set_output_scaler v).
Proof. by intros s. Qed.

Lemma keeps_the_model : keeps_target_names the_model.
Proof.
  apply keeps_bind; [apply keeps_gets|]. intros [m|]; [apply keeps_ret | apply keeps_lift].
Qed.

Lemma keeps_bind_weights (E : env) (sd : list (string * pyval)) :
  keeps_target_names (bind_weights E sd).
Proof.
  apply keeps_try; [|intros e; apply keeps_logger].
  apply keeps_bind; [apply keeps_the_model|]. intros m.
  destruct (load_state_dict E (params m) sd) as [params' outcome].
  apply keeps_bind; [apply keeps_set_model|]. intros _.
  apply keeps_bind; [apply keeps_lift|]. intros _. apply keeps_logger.
Qed.

(** A load from a checkpoint that carries no target names, or that is not
    a container, or that fails, leaves the target vector as it was: from
    the initial globals, the default one. *)
Lemma load_model_keeps_target_names (E : env) (g : globals) (l : log) :
  (forall d, torch_load E = Ok (VDict d) -> Dict.mem d "target_names" = false) ->
  target_names (load_model E (g, l)).1.1 = target_names g.
Proof.
  intros Hno. cut (keeps_target_names (load_model E)); [intros H; exact (H (g, l))|].
  unfold load_model. destruct (negb (path_exists E)).
  { apply keeps_bind; [apply keeps_logger|]. intros _. apply keeps_ret. }
  apply keeps_try.
  2:{ intros e. apply keeps_bind; [apply keeps_logger|]. intros _.
      apply keeps_bind; [apply keeps_logger|]. intros _. apply keeps_ret. }
  unfold load_model_body.
  apply keeps_bind; [apply keeps_logger|]. intros _.
  destruct (torch_load E) as [checkpoint|e] eqn:Hload.
  2:{ intros s. reflexivity. }
  apply keeps_bind_ok.
  apply keeps_bind; [apply keeps_set_model|]. intros _.
  apply keeps_bind.
  { destruct checkpoint as [| | |d| | |]; try apply keeps_ret.
    rewrite (Hno d eq_refl).
    apply keeps_bind; [|intros _; apply keeps_ret].
    destruct (Dict.mem d "target_scaler"); [apply keeps_set_output_scaler|].
    destruct (Dict.mem d "scaler"); [apply keeps_set_output_scaler | apply keeps_ret]. }
  intros _.
  apply keeps_bind; [apply keeps_lift|]. intros state_dict.
  apply keeps_bind; [apply keeps_lift|]. intros items.
  apply keeps_bind; [apply keeps_gets|]. intros names.
  apply keeps_bind; [apply keeps_lift|]. intros t.
  apply keeps_bind; [destruct t; [apply keeps_lift | apply keeps_ret]|]. intros n.
  apply keeps_bind; [apply keeps_the_model|]. intros m.
  apply keeps_bind; [apply keeps_set_model|]. intros _.
  apply keeps_bind; [apply keeps_bind_weights|]. intros _.
  apply keeps_bind; [apply keeps_the_model|]. intros m'.
  apply keeps_bind; [apply keeps_set_model|]. intros _.
  apply keeps_bind; [apply keeps_set_model_loaded|]. intros _. apply keeps_ret.
Qed.

(** ** Weight binding *)

Lemma bind_param_changed (sd : list (string * pyval)) (name : string) (p : tensor) :
  bind_param sd name p <> p ->
  exists t, Dict.get sd name = Some (VTensor t) /\ shape t = shape p /\
            bind_param sd name p = t.
Proof.
  unfold bind_param, bindable. intros Hne.
  destruct (Dict.get sd name) as [[| | | |t| |]|]; try done.
  destruct (decide (shape t = shape p)); [|done]. by exists t.
Qed.

(** C5 (amended). Binding the weights never raises to its caller,
    whatever the library call does.  With non-strict binding, it changes
    only parameters that the mapping and the architecture both have, with
    the same shape; the parameters the mapping lacks keep their values;
    and it logs one record: an error when an entry is shape-incompatible,
    the success message otherwise. *)
Theorem bind_weights_nonstrict (E : env) (new_state_dict : list (string * pyval))
    (g : globals) (l : log) :
  (exists s', bind_weights E new_state_dict (g, l) = (s', Ok tt)) /\
  (forall m : net,
     model g = Some m ->
     load_state_dict E = nonstrict_load_state_dict ->
     exists m' : net,
       bind_weights E new_state_dict (g, l) =
         ((mkGlobals (Some m') (model_loaded g) (output_scaler g) (target_names g),
           l ++ [match incompatible (params m) new_state_dict with
                 | [] => (INFO, "ResNet weights extracted and loaded successfully"%string)
                 | _ :: _ => (ERROR, "Weight loading error"%string)
                 end]),
          Ok tt) /\
       eval_mode m' = eval_mode m /\
       (forall name, params m' !! name ≠ params m !! name ->
          exists p t, params m !! name = Some p /\
                      Dict.get new_state_dict name = Some (VTensor t) /\
                      shape t = shape p /\
                      params m' !! name = Some t) /\
       (forall name, Dict.get new_state_dict name = None ->
          params m' !! name = params m !! name)).
Proof.
  split.
  - unfold bind_weights, try_except.
    match goal with |- context [match ?b with _ => _ end] => destruct b as [s' [[]|e]] end;
      eauto.
  - intros m Hm HE.
    exists (mkNet (map_imap (fun name p => Some (bind_param new_state_dict name p)) (params m))
              (eval_mode m)).
    split; [|split; [done|split]].
    + unfold bind_weights, try_except, the_model, gets, set_model, modify, lift, logger.
      unfold mbind, M_bind, mret, M_ret. cbn [fst snd]. rewrite Hm, HE.
      unfold nonstrict_load_state_dict. cbn [fst snd].
      by destruct (incompatible (params m) new_state_dict).
    + intros name. cbn [params]. rewrite map_lookup_imap.
      destruct (params m !! name) as [p|] eqn:Hp; [|done]. simpl.
      intros Hne. assert (Hch : bind_param new_state_dict name p <> p) by congruence.
      destruct (bind_param_changed _ _ _ Hch) as (t & Hget & Hshape & Hbind).
      exists p, t. by rewrite Hbind.
    + intros name Hget. cbn [params]. rewrite map_lookup_imap.
      destruct (params m !! name) as [p|]; [|done]. simpl.
      unfold bind_param. by rewrite Hget.
Qed.

Lemma bind_weights_nonstrict_witness :
  exists m' : net,
    (bind_weights (example_env true (Ok example_checkpoint))
       [("bn1.weight"%string, VTensor example_tensor)]
       (mkGlobals (Some (mkNet example_arch false)) false VNone default_target_names, [])).1.1
    = mkGlobals (Some m') false VNone default_target_names.
Proof.
  destruct (proj2 (bind_weights_nonstrict (example_env true (Ok example_checkpoint))
                     [("bn1.weight"%string, VTensor example_tensor)]
                     (mkGlobals (Some (mkNet example_arch false)) false VNone
                        default_target_names) [])
              (mkNet example_arch false) eq_refl eq_refl) as (m' & Hrun & _).
  exists m'. exact (f_equal (fun x : globals * log * result unit => x.1.1) Hrun).
Defined.

(** Counterexample to C5 as worded: an entry of the mapping that
    names no parameter of the architecture is skipped and nothing but the
    success message is logged. *)
Lemma skipped_entry_not_logged_counterexample :
  ~ (forall (E : env) (sd : list (string * pyval)) (g : globals) (l : log) (m : net),
       model g = Some m ->
       load_state_dict E = nonstrict_load_state_dict ->
       forall k, k ∈ unexpected (params m) sd ->
       Exists (fun r => is_problem r = true) (bind_weights E sd (g, l)).1.2).
Proof.
  intros H.
  specialize (H (example_env true (Ok example_checkpoint))
                [("extra.weight"%string, VTensor example_tensor)]
                (mkGlobals (Some (mkNet example_arch false)) false VNone default_target_names)
                [] (mkNet example_arch false) eq_refl eq_refl
                "extra.weight"%string).
  assert (Hlog : (bind_weights (example_env true (Ok example_checkpoint))
                    [("extra.weight"%string, VTensor example_tensor)]
                    (mkGlobals (Some (mkNet example_arch false)) false VNone
                       default_target_names, [])).1.2 =
                 [(INFO, "ResNet weights extracted and loaded successfully"%string)])
    by (vm_compute; reflexivity).
  assert (Hk : "extra.weight"%string ∈
               unexpected (params (mkNet example_arch false))
                 [("extra.weight"%string, VTensor example_tensor)])
    by (vm_compute; apply list_elem_of_here).
  specialize (H Hk). unfold log in *. rewrite Hlog in H.
  apply Exists_cons in H as [H|H]; [discriminate H|].
  by apply Exists_nil in H.
Qed.

(** ** The output rescaler *)

Lemma rescale_failing (s : scaler) (raw : list (list float)) (e : exn) :
  inverse_transform s raw = Raise e ->
  rescale (VScaler s) raw = ([(ERROR, "Scaler failed"%string)], index0 raw).
Proof. unfold rescale. cbn. by intros ->. Qed.

Lemma rescale_no_scaler (raw : list (list float)) :
  rescale VNone raw = ([], index0 raw).
Proof. reflexivity. Qed.

Lemma real_prediction_result (round_float : float -> Z -> float) (g g' : globals)
    (rq : request) :
  (forall raw, (predict_metrics g raw).2 = (predict_metrics g' raw).2) ->
  (real_prediction round_float g rq).2 = (real_prediction round_float g' rq).2.
Proof.
  intros H. unfold real_prediction. destruct (forward rq) as [raw|e]; [|done].
  specialize (H raw).
  destruct (predict_metrics g raw) as [l [m|e]], (predict_metrics g' raw) as [l' [m'|e']];
    cbn [snd] in *; congruence.
Qed.

Lemma endpoint_result (round_float : float -> Z -> float) (g g' : globals)
    (rq : request) :
  model_loaded g = model_loaded g' ->
  (real_prediction round_float g rq).2 = (real_prediction round_float g' rq).2 ->
  (predict_weight_endpoint round_float g rq).2 =
  (predict_weight_endpoint round_float g' rq).2.
Proof.
  intros Hl H. unfold predict_weight_endpoint. rewrite <- Hl.
  destruct (model_loaded g); [|done]. cbn [negb].
  destruct (image_open rq); [|done].
  destruct (real_prediction round_float g rq) as [l [r|e]],
    (real_prediction round_float g' rq) as [l' [r'|e']]; cbn [snd] in *; congruence.
Qed.

Lemma metric_classifier_str (names : list string) (row : list float) :
  exists m, metric_classifier (VList (VStr <$> names)) row = Ok m.
Proof.
  unfold metric_classifier. cbn [py_iter mbind result_bind].
  destruct (classify_loop_str row names 0 results0) as (m & Hm & _). by exists m.
Qed.

Lemma endpoint_report (round_float : float -> Z -> float) (g : globals)
    (rq : request) (row : list float) (l : log) (m : metrics) :
  model_loaded g = true ->
  image_open rq = Ok tt ->
  forward rq = Ok [row] ->
  predict_metrics g [row] = (l, Ok m) ->
  predict_weight_endpoint round_float g rq =
    (l,
     Ok (Success
           {| weight_kg := round_float (live_weight m) 2%Z;
              confidence := round_float (uniform rq (of_Z 88) (of_Z 99)) 1%Z;
              status := determine_status (live_weight m);
              image_name := filename rq;
              lean_percent := py_round round_float (lean_pct (carcass_details m)) 1%Z;
              fat_percent := py_round round_float (fat_pct (carcass_details m)) 1%Z;
              bone_percent := py_round round_float (other_pct (carcass_details m)) 1%Z;
              raw_lean := round_float (lean_mass m) 2%Z;
              raw_fat := round_float (fat_mass m) 2%Z;
              raw_carcass_total := round_float (carcass_weight m) 2%Z |})).
Proof.
  intros Hl Hi Hf Hpm.
  unfold predict_weight_endpoint, real_prediction.
  by rewrite Hl, Hi, Hf, Hpm.
Qed.

(** C6. When the scaler recovered from the checkpoint raises on the raw
    output, the rescaler logs it and hands on the raw row: the metrics are
    those the classifier computes from the raw row, and the caller gets a
    report, not a failure, whose weight, status, percentages and raw
    masses are computed from those metrics; it is the response computed
    without a scaler.  With no scaler the raw row is used directly, with
    the same report and nothing logged by the rescaler.  When the target
    names are strings the classifier does return metrics. *)
Theorem rescale_fallback (round_float : float -> Z -> float) (g : globals)
    (rq : request) (row : list float) :
  (forall s e,
     output_scaler g = VScaler s ->
     inverse_transform s [row] = Raise e ->
     rescale (output_scaler g) [row] = ([(ERROR, "Scaler failed"%string)], Ok row) /\
     predict_metrics g [row] =
       ([(ERROR, "Scaler failed"%string); (INFO, "Raw Model Predictions"%string)],
        metric_classifier (target_names g) row) /\
     (forward rq = Ok [row] ->
      (predict_weight_endpoint round_float g rq).2 =
      (predict_weight_endpoint round_float (without_scaler g) rq).2) /\
     (forall m,
        model_loaded g = true -> image_open rq = Ok tt -> forward rq = Ok [row] ->
        metric_classifier (target_names g) row = Ok m ->
        predict_weight_endpoint round_float g rq =
          ([(ERROR, "Scaler failed"%string); (INFO, "Raw Model Predictions"%string)],
           Ok (Success
                 {| weight_kg := round_float (live_weight m) 2%Z;
                    confidence := round_float (uniform rq (of_Z 88) (of_Z 99)) 1%Z;
                    status := determine_status (live_weight m);
                    image_name := filename rq;
                    lean_percent := py_round round_float (lean_pct (carcass_details m)) 1%Z;
                    fat_percent := py_round round_float (fat_pct (carcass_details m)) 1%Z;
                    bone_percent := py_round round_float (other_pct (carcass_details m)) 1%Z;
                    raw_lean := round_float (lean_mass m) 2%Z;
                    raw_fat := round_float (fat_mass m) 2%Z;
                    raw_carcass_total := round_float (carcass_weight m) 2%Z |})))) /\
  (output_scaler g = VNone ->
   rescale (output_scaler g) [row] = ([], Ok row) /\
   predict_metrics g [row] =
     ([(INFO, "Raw Model Predictions"%string)], metric_classifier (target_names g) row) /\
   (forall m,
      model_loaded g = true -> image_open rq = Ok tt -> forward rq = Ok [row] ->
      metric_classifier (target_names g) row = Ok m ->
      predict_weight_endpoint round_float g rq =
        ([(INFO, "Raw Model Predictions"%string)],
         Ok (Success
               {| weight_kg := round_float (live_weight m) 2%Z;
                  confidence := round_float (uniform rq (of_Z 88) (of_Z 99)) 1%Z;
                  status := determine_status (live_weight m);
                  image_name := filename rq;
                  lean_percent := py_round round_float (lean_pct (carcass_details m)) 1%Z;
                  fat_percent := py_round round_float (fat_pct (carcass_details m)) 1%Z;
                  bone_percent := py_round round_float (other_pct (carcass_details m)) 1%Z;
                  raw_lean := round_float (lean_mass m) 2%Z;
                  raw_fat := round_float (fat_mass m) 2%Z;
                  raw_carcass_total := round_float (carcass_weight m) 2%Z |})))) /\
  (forall names : list string,
     target_names g = VList (VStr <$> names) ->
     exists m, metric_classifier (target_names g) row = Ok m).
Proof.
  split; [|split].
  - intros s e Hs He.
    assert (Hres : rescale (output_scaler g) [row] =
                   ([(ERROR, "Scaler failed"%string)], Ok row)).
    { rewrite Hs. by rewrite (rescale_failing s [row] e He). }
    assert (Hpm : predict_metrics g [row] =
                  ([(ERROR, "Scaler failed"%string); (INFO, "Raw Model Predictions"%string)],
                   metric_classifier (target_names g) row)).
    { unfold predict_metrics. by rewrite Hres. }
    split; [done|]. split; [done|]. split.
    + intros Hf. apply endpoint_result; [done|].
      unfold real_prediction. rewrite Hf, Hpm.
      assert (Hpm' : (predict_metrics (without_scaler g) [row]).2 =
                     metric_classifier (target_names g) row) by reflexivity.
      destruct (metric_classifier (target_names g) row) as [m|e1],
        (predict_metrics (without_scaler g) [row]) as [l' [m'|e1']];
        cbn [snd] in *; congruence.
    + intros m Hl Hi Hf Hm.
      apply (endpoint_report round_float g rq row); try done.
      by rewrite Hpm, Hm.
  - intros Hs.
    assert (Hpm : predict_metrics g [row] =
                  ([(INFO, "Raw Model Predictions"%string)],
                   metric_classifier (target_names g) row)).
    { unfold predict_metrics. by rewrite Hs. }
    rewrite Hs at 1. split; [reflexivity|]. split; [done|].
    intros m Hl Hi Hf Hm.
    apply (endpoint_report round_float g rq row); try done.
    by rewrite Hpm, Hm.
  - intros names ->. apply metric_classifier_str.
Qed.

Lemma rescale_fallback_witness :
  let g := mkGlobals None true (VScaler failing_scaler)
             (VList (VStr <$> ["weight_kg"; "lean_kg"; "fat_kg"; "carcass_kg"]%string)) in
  rescale (output_scaler g) [[of_Z 50; of_Z 20; of_Z 10; of_Z 40]] =
    ([(ERROR, "Scaler failed"%string)], Ok [of_Z 50; of_Z 20; of_Z 10; of_Z 40]) /\
  predict_weight_endpoint (fun x _ => x) g example_request =
    ([(ERROR, "Scaler failed"%string); (INFO, "Raw Model Predictions"%string)],
     Ok (Success
           {| weight_kg := of_Z 50;
              confidence := uniform example_request (of_Z 88) (of_Z 99);
              status := "Healthy";
              image_name := filename example_request;
              lean_percent := PFloat (of_Z 50);
              fat_percent := PFloat (of_Z 25);
              bone_percent := PFloat (of_Z 25);
              raw_lean := of_Z 20;
              raw_fat := of_Z 10;
              raw_carcass_total := of_Z 40 |})) /\
  rescale (output_scaler (without_scaler g)) [[of_Z 50; of_Z 20; of_Z 10; of_Z 40]] =
    ([], Ok [of_Z 50; of_Z 20; of_Z 10; of_Z 40]).
Proof.
  intros g.
  destruct (proj1 (rescale_fallback (fun x _ => x) g example_request
                     [of_Z 50; of_Z 20; of_Z 10; of_Z 40])
              failing_scaler (OtherException "not fitted") eq_refl eq_refl)
    as (H1 & _ & _ & H4).
  split; [exact H1|]. split.
  - exact (H4 (mkMetrics (of_Z 50) (of_Z 20) (of_Z 10) (of_Z 40))
              eq_refl eq_refl eq_refl eq_refl).
  - exact (proj1 (proj1 (proj2 (rescale_fallback (fun x _ => x) (without_scaler g)
                                   example_request
                                   [of_Z 50; of_Z 20; of_Z 10; of_Z 40])) eq_refl)).
Defined.

(** ** Worked examples *)

(** The constants of the program are binary64 values. *)
Example thresholds_valid :
  Forall (fun x => valid x = true)
    [of_Z 0; of_Z 40; of_Z 45; of_Z 55; of_Z 65; of_Z 100;
     of_decimal 3999 2; of_decimal 5499 2].
Proof. repeat constructor. Qed.

(** Upper-case names are classified like their lower-case forms, and a
    negative prediction is clamped. *)
Example classifier_end_to_end :
  metric_classifier
    (VList [VStr "Weight_KG"; VStr "lean_kg"; VStr "FAT_kg"; VStr "carcass_total_kg"])
    [of_Z 50; of_Z 20; of_Z (-3); of_Z 40] =
  Ok (mkMetrics (of_Z 50) (of_Z 20) zero (of_Z 40)).
Proof. vm_compute. reflexivity. Qed.

(** The checkpoint of the end-to-end test: the backbone entry is kept
    under its stripped name, the two auxiliary branches are dropped. *)
Example remap_end_to_end :
  remap [("cnn.layer1.0.conv1.weight"%string, 1%nat); ("tab_mlp.x"%string, 2%nat);
         ("final_head.y"%string, 3%nat)] =
  [("layer1.0.conv1.weight"%string, 1%nat)].
Proof. reflexivity. Qed.

(** A later entry takes the place and name of an earlier one it collides
    with. *)
Example remap_collision :
  remap [("bn1.weight"%string, 1%nat); ("fc.bias"%string, 2%nat);
         ("cnn.bn1.weight"%string, 3%nat)] =
  [("bn1.weight"%string, 3%nat); ("fc.bias"%string, 2%nat)].
Proof. reflexivity. Qed.

(** A first load from a checkpoint without target names, then the
    classifier on its default vector. *)
Example load_then_classify :
  let s := (load_model (example_env true (Ok example_checkpoint)) (initial_globals, [])).1 in
  model_loaded s.1 = true /\
  target_names s.1 = default_target_names /\
  (predict_metrics s.1 [[of_Z 50; of_Z 20; of_Z 10; of_Z 40]]).2 = Ok results0.
Proof. vm_compute. repeat split. Qed.

(** * Further properties *)

(** ** A successful load *)

Lemma bind_param_shape (sd : list (string * pyval)) (name : string) (p : tensor) :
  shape (bind_param sd name p) = shape p.
Proof.
  unfold bind_param, bindable.
  destruct (Dict.get sd name) as [[| | | |t| |]|]; try done.
  by destruct (decide (shape t = shape p)).
Qed.

Lemma run_bind {A B : Type} (c : M A) (f : A -> M B) (s s' : globals * log) (a : A) :
  c s = (s', Ok a) -> (c ≫= f) s = f a s'.
Proof. intros H. unfold mbind, M_bind. by rewrite H. Qed.

Lemma run_bind_raise {A B : Type} (c : M A) (f : A -> M B) (s s' : globals * log)
    (e : exn) :
  c s = (s', Raise e) -> (c ≫= f) s = (s', Raise e).
Proof. intros H. unfold mbind, M_bind. by rewrite H. Qed.

(** Step 2 of a load stores the recovered scaler and target names. *)
Lemma metadata_run (checkpoint : pyval) (s : globals * log) :
  (match checkpoint with
   | VDict d =>
       (if Dict.mem d "target_scaler" then set_output_scaler (py_get d "target_scaler")
        else if Dict.mem d "scaler" then set_output_scaler (py_get d "scaler")
        else skip);;
       (if Dict.mem d "target_names" then set_target_names (py_get d "target_names")
        else skip)
   | _ => skip
   end) s =
  ((mkGlobals (model s.1) (model_loaded s.1)
      (recovered_scaler checkpoint (output_scaler s.1))
      (recovered_names checkpoint (target_names s.1)), s.2), Ok tt).
Proof.
  destruct s as [[m ml sc tn] l0]. unfold recovered_scaler, recovered_names.
  destruct checkpoint; try reflexivity.
  destruct (Dict.mem d "target_scaler"), (Dict.mem d "scaler"),
    (Dict.mem d "target_names"); reflexivity.
Qed.

(** Step 6 of a load on a model that is there. *)
Lemma bind_weights_run (E : env) (sd : list (string * pyval)) (g : globals) (l : log)
    (m : net) :
  model g = Some m ->
  bind_weights E sd (g, l) =
    ((mkGlobals (Some (mkNet (load_state_dict E (params m) sd).1 (eval_mode m)))
        (model_loaded g) (output_scaler g) (target_names g),
      l ++ [match (load_state_dict E (params m) sd).2 with
            | Ok _ => (INFO, "ResNet weights extracted and loaded successfully"%string)
            | Raise _ => (ERROR, "Weight loading error"%string)
            end]),
     Ok tt).
Proof.
  intros Hm. unfold bind_weights, try_except, the_model, gets, set_model, modify, lift,
    logger. unfold mbind, M_bind, mret, M_ret. cbn [fst snd]. rewrite Hm.
  by destruct (load_state_dict E (params m) sd) as [params' [keys|e]].
Qed.

Lemma load_model_success_run (E : env) (g : globals) (l : log) (checkpoint : pyval)
    (items : list (string * pyval)) (n : nat) :
  path_exists E = true ->
  torch_load E = Ok checkpoint ->
  locate_state_dict checkpoint = Ok (VDict items) ->
  head_size (recovered_names checkpoint (target_names g)) = Ok n ->
  let arch := params (replace_fc E fc_in_features n (mkNet (resnet18 E) false)) in
  let bound := load_state_dict E arch (remap items) in
  load_model E (g, l) =
    ((mkGlobals (Some (mkNet bound.1 true)) true
        (recovered_scaler checkpoint (output_scaler g))
        (recovered_names checkpoint (target_names g)),
      l ++ [(INFO, "Loading Model"%string);
            match bound.2 with
            | Ok _ => (INFO, "ResNet weights extracted and loaded successfully"%string)
            | Raise _ => (ERROR, "Weight loading error"%string)
            end]),
     Ok true).
Proof.
  intros Hex Hload Hloc Hhead arch bound.
  unfold load_model. rewrite Hex. cbn [negb].
  unfold try_except, load_model_body.
  erewrite run_bind by reflexivity.
  rewrite Hload. erewrite run_bind by reflexivity.
  erewrite run_bind by reflexivity.
  erewrite run_bind by apply metadata_run.
  rewrite Hloc. erewrite run_bind by reflexivity.
  erewrite run_bind by reflexivity.
  erewrite run_bind by reflexivity.
  cbn [fst snd model model_loaded output_scaler target_names].
  unfold head_size in Hhead.
  destruct (py_truthy (recovered_names checkpoint (target_names g))) as [t|e];
    [|discriminate].
  erewrite run_bind by reflexivity.
  cbn [mbind result_bind] in Hhead.
  assert (Hn : (if t then lift (py_len (recovered_names checkpoint (target_names g)))
                else mret 4%nat) = (lift (Ok n) : M nat)).
  { destruct t; [by rewrite Hhead | by injection Hhead as <-]. }
  rewrite Hn. erewrite run_bind by reflexivity.
  erewrite run_bind by reflexivity.
  erewrite run_bind by reflexivity.
  erewrite run_bind by (apply bind_weights_run; reflexivity).
  erewrite run_bind by reflexivity.
  erewrite run_bind by reflexivity.
  erewrite run_bind by reflexivity.
  cbn. fold arch. fold bound. by rewrite <- app_assoc.
Qed.


(** ** Assertions on computations *)

Lemma triple_bind {A B : Type} (P : globals * log -> Prop) (c : M A) (f : A -> M B)
    (Q' : A -> globals * log -> Prop) (Q : B -> globals * log -> Prop)
    (X : exn -> globals * log -> Prop) :
  triple P c Q' X -> (forall a, triple (Q' a) (f a) Q X) -> triple P (c ≫= f) Q X.
Proof.
  intros Hc Hf s Hs. unfold mbind, M_bind. specialize (Hc s Hs).
  destruct (c s) as [s' [a|e]]; [|done]. apply (Hf a s' Hc).
Qed.

Lemma triple_try {A : Type} (P : globals * log -> Prop) (c : M A) (h : exn -> M A)
    (Q : A -> globals * log -> Prop) (X' X : exn -> globals * log -> Prop) :
  triple P c Q X' -> (forall e, triple (X' e) (h e) Q X) -> triple P (try_except c h) Q X.
Proof.
  intros Hc Hh s Hs. unfold try_except. specialize (Hc s Hs).
  destruct (c s) as [s' [a|e]]; [done|]. apply (Hh e s' Hc).
Qed.

Lemma triple_lift {A : Type} (P : globals * log -> Prop) (r : result A)
    (X : exn -> globals * log -> Prop) :
  (forall e s, P s -> X e s) -> triple P (lift r) (fun _ => P) X.
Proof. intros HX s Hs. unfold lift. destruct r; [done | by apply HX]. Qed.

Lemma triple_ret {A : Type} (P : globals * log -> Prop) (a : A)
    (Q : A -> globals * log -> Prop) (X : exn -> globals * log -> Prop) :
  (forall s, P s -> Q a s) -> triple P (mret a) Q X.
Proof. intros HQ s Hs. by apply HQ. Qed.

Lemma triple_gets {A : Type} (P : globals * log -> Prop) (f : globals -> A)
    (X : exn -> globals * log -> Prop) :
  triple P (gets f) (fun a s => P s /\ a = f s.1) X.
Proof. by intros s Hs. Qed.

Lemma triple_modify (P Q : globals * log -> Prop) (f : globals -> globals)
    (X : exn -> globals * log -> Prop) :
  (forall s, P s -> Q (f s.1, s.2)) -> triple P (modify f) (fun _ => Q) X.
Proof. intros HQ s Hs. by apply HQ. Qed.

Lemma triple_logger (P Q : globals * log -> Prop) (lv : level) (msg : string)
    (X : exn -> globals * log -> Prop) :
  (forall s, P s -> Q (s.1, s.2 ++ [(lv, msg)])) -> triple P (logger lv msg) (fun _ => Q) X.
Proof. intros HQ s Hs. by apply HQ. Qed.

Lemma extends_refl (l : log) : extends l l.
Proof. exists []. by rewrite app_nil_r. Qed.

Lemma extends_snoc (l l' : log) (r : level * string) : extends l l' -> extends l (l' ++ [r]).
Proof. intros [more ->]. exists (more ++ [r]). by rewrite app_assoc. Qed.

(** ** Every path of a load *)

Lemma loading_the_model (g : globals) (l : log) (checkpoint : pyval) :
  triple (loading g l checkpoint) the_model
    (fun m s => loading g l checkpoint s /\ model s.1 = Some m /\ eval_mode m = false)
    (fun _ => loading g l checkpoint).
Proof.
  intros [g0 l0] H. unfold the_model, gets, lift. unfold mbind, M_bind, mret, M_ret.
  cbn [fst snd]. destruct H as (H1 & H2 & H3 & H4 & m & Hm & He).
  cbn [fst] in Hm. rewrite Hm. repeat split; try done. by exists m.
Qed.

Lemma loading_set_model (g : globals) (l : log) (checkpoint : pyval) (m : net) :
  eval_mode m = false ->
  triple (loading g l checkpoint) (set_model (Some m)) (fun _ => loading g l checkpoint)
    (fun _ => loading g l checkpoint).
Proof.
  intros He. apply triple_modify. intros [g0 l0] (H1 & H2 & H3 & H4 & _).
  repeat split; try done. by exists m.
Qed.

Lemma loading_bind_weights (E : env) (g : globals) (l : log) (checkpoint : pyval)
    (sd : list (string * pyval)) :
  triple (loading g l checkpoint) (bind_weights E sd) (fun _ => loading g l checkpoint)
    (fun _ => loading g l checkpoint).
Proof.
  intros [g0 l0] H. destruct H as (H1 & H2 & H3 & H4 & m & Hm & He).
  cbn [fst snd] in *. rewrite (bind_weights_run E sd g0 l0 m Hm).
  repeat split; try done.
  - by apply extends_snoc.
  - eexists. split; [reflexivity|]. exact He.
Qed.

Lemma replace_fc_eval_mode (E : env) (i n : nat) (m : net) :
  eval_mode (replace_fc E i n m) = eval_mode m.
Proof. unfold replace_fc. by destruct (linear_data E i n). Qed.

(** The body of the [try] of a load, from the state the load starts in,
    when the checkpoint deserialises. *)
Lemma load_model_body_paths (E : env) (g : globals) (l : log) (checkpoint : pyval) :
  torch_load E = Ok checkpoint ->
  triple (fun s => s = (g, l)) (load_model_body E)
    (fun b s => b = true /\ loaded g l checkpoint s)
    (fun _ => loading g l checkpoint).
Proof.
  intros Hload s ->. unfold load_model_body.
  erewrite run_bind by reflexivity.
  rewrite Hload. erewrite run_bind by reflexivity.
  erewrite run_bind by reflexivity.
  erewrite run_bind by apply metadata_run.
  cbn [fst snd model model_loaded output_scaler target_names].
  lazymatch goal with
  | |- match ?c ?st with _ => _ end =>
      cut (triple (loading g l checkpoint) c
             (fun b s' => b = true /\ loaded g l checkpoint s')
             (fun _ => loading g l checkpoint));
      [intros Ht; apply (Ht st)|]
  end.
  { repeat split; try done.
    - exists [(INFO, "Loading Model"%string)]. reflexivity.
    - eexists. split; reflexivity. }
  eapply triple_bind; [apply triple_lift; auto|]. intros state_dict.
  eapply triple_bind; [apply triple_lift; auto|]. intros items.
  eapply triple_bind; [apply triple_gets|]. intros names.
  eapply triple_bind with (Q' := fun _ => loading g l checkpoint).
  { intros s [Hs _]. unfold lift. by destruct (py_truthy names). }
  intros t.
  eapply triple_bind with (Q' := fun _ => loading g l checkpoint).
  { destruct t; [apply triple_lift; auto | by apply triple_ret]. }
  intros num_outputs.
  eapply triple_bind; [apply loading_the_model|]. intros m.
  eapply triple_bind with (Q' := fun _ => loading g l checkpoint).
  { intros s (Hs & _ & He). apply (loading_set_model g l checkpoint); [|done].
    by rewrite replace_fc_eval_mode. }
  intros [].
  eapply triple_bind; [apply loading_bind_weights|]. intros [].
  eapply triple_bind; [apply loading_the_model|]. intros m'.
  intros [g0 l0] ((H1 & H2 & H3 & H4 & _) & _).
  cbn. repeat split; try done. eexists. split; reflexivity.
Qed.

Lemma loading_logger (g : globals) (l : log) (checkpoint : pyval) (lv : level)
    (msg : string) (s : globals * log) :
  loading g l checkpoint s -> loading g l checkpoint (s.1, s.2 ++ [(lv, msg)]).
Proof.
  intros (H1 & H2 & H3 & H4 & H5). repeat split; try done. by apply extends_snoc.
Qed.

(** A load whose checkpoint deserialises ends in one of two ways. *)
Lemma load_model_paths (E : env) (g : globals) (l : log) (checkpoint : pyval) :
  path_exists E = true ->
  torch_load E = Ok checkpoint ->
  (exists s, load_model E (g, l) = (s, Ok true) /\ loaded g l checkpoint s) \/
  (exists s, load_model E (g, l) = (s, Ok false) /\ loading g l checkpoint s).
Proof.
  intros Hex Hload. unfold load_model. rewrite Hex. cbn [negb]. unfold try_except.
  pose proof (load_model_body_paths E g l checkpoint Hload (g, l) eq_refl) as H.
  destruct (load_model_body E (g, l)) as [s' [b|e]].
  - destruct H as [-> H]. left. by exists s'.
  - right. eexists. split; [reflexivity|].
    by apply loading_logger, loading_logger.
Qed.

Lemma load_model_outcome (E : env) (g : globals) (l : log) :
  let r := load_model E (g, l) in
  extends l r.1.2 /\
  ((r.2 = Ok true /\ model_loaded r.1.1 = true /\
    exists m : net, model r.1.1 = Some m /\ eval_mode m = true) \/
   (r.2 = Ok false /\ model_loaded r.1.1 = model_loaded g)).
Proof.
  intros r. subst r. destruct (path_exists E) eqn:Hex.
  - destruct (torch_load E) as [checkpoint|e] eqn:Hload.
    + destruct (load_model_paths E g l checkpoint Hex Hload)
        as [(s & -> & H1 & H2 & _ & _ & H5) | (s & -> & H1 & H2 & _)].
      * split; [done|]. left. by repeat split.
      * split; [done|]. right. by split.
    + unfold load_model, try_except, load_model_body. rewrite Hex. cbn [negb].
      erewrite run_bind by reflexivity. rewrite Hload.
      erewrite run_bind_raise by reflexivity.
      split; [|right; by split]. cbn [fst snd].
      by apply extends_snoc, extends_snoc, extends_snoc, extends_refl.
  - unfold load_model. rewrite Hex. cbn [negb].
    split; [|right; by split]. by apply extends_snoc, extends_refl.
Qed.

(** X2. A load never raises and never drops a log record.  When it
    returns [True], the flag is set and the model is a network in
    inference mode; when it returns [False], the flag is what it was. *)
Theorem load_model_contained (E : env) (g : globals) (l : log) :
  let r := load_model E (g, l) in
  extends l r.1.2 /\
  ((r.2 = Ok true /\ model_loaded r.1.1 = true /\
    exists m : net, model r.1.1 = Some m /\ eval_mode m = true) \/
   (r.2 = Ok false /\ model_loaded r.1.1 = model_loaded g)).
Proof. apply load_model_outcome. Qed.

(** X3. Once the checkpoint is deserialised the metadata is stored,
    whether the load then succeeds or not: the scaler is the value of
    "target_scaler", else of "scaler", else the one already there, and the
    target vector is the value of "target_names", else the one already
    there; a checkpoint that is no dictionary leaves both as they were. *)
Theorem load_model_metadata (E : env) (g : globals) (l : log) (checkpoint : pyval) :
  path_exists E = true ->
  torch_load E = Ok checkpoint ->
  output_scaler (load_model E (g, l)).1.1 = recovered_scaler checkpoint (output_scaler g) /\
  target_names (load_model E (g, l)).1.1 = recovered_names checkpoint (target_names g).
Proof.
  intros Hex Hload.
  destruct (load_model_paths E g l checkpoint Hex Hload)
    as [(s & -> & _ & _ & H3 & H4 & _) | (s & -> & _ & _ & H3 & H4 & _)]; by split.
Qed.

(** X4. A load that fails after the checkpoint is deserialised has
    already replaced the model: what is left is a network in training
    mode, and the flag is what it was, true after an earlier successful
    load. *)
Theorem failed_load_replaces_model (E : env) (g : globals) (l : log) (checkpoint : pyval) :
  path_exists E = true ->
  torch_load E = Ok checkpoint ->
  (load_model E (g, l)).2 = Ok false ->
  model_loaded (load_model E (g, l)).1.1 = model_loaded g /\
  exists m : net, model (load_model E (g, l)).1.1 = Some m /\ eval_mode m = false.
Proof.
  intros Hex Hload Hfalse.
  destruct (load_model_paths E g l checkpoint Hex Hload)
    as [(s & Hrun & _) | (s & Hrun & H1 & _ & _ & _ & H5)];
    rewrite Hrun in *; [discriminate | by split].
Qed.

(** ** The output layer after a load *)

Lemma head_size_list (names : list pyval) :
  head_size (VList names) = Ok (match names with [] => 4 | _ :: _ => length names end).
Proof. by destruct names. Qed.

Lemma nonstrict_lookup (arch : gmap string tensor) (sd : list (string * pyval))
    (name : string) (p : tensor) :
  arch !! name = Some p ->
  exists p', (nonstrict_load_state_dict arch sd).1 !! name = Some p' /\ shape p' = shape p.
Proof.
  intros Hp. exists (bind_param sd name p). split; [|apply bind_param_shape].
  unfold nonstrict_load_state_dict. cbn [fst]. by rewrite map_lookup_imap, Hp.
Qed.

(** X5. After a successful load with non-strict binding, the output
    layer has one row per target name, four when there is no name, and 512
    columns, whatever the checkpoint held for it. *)
Theorem load_model_head_shape (E : env) (g : globals) (l : log) (checkpoint : pyval)
    (items : list (string * pyval)) (names : list pyval) :
  path_exists E = true ->
  torch_load E = Ok checkpoint ->
  locate_state_dict checkpoint = Ok (VDict items) ->
  recovered_names checkpoint (target_names g) = VList names ->
  load_state_dict E = nonstrict_load_state_dict ->
  let n := match names with [] => 4 | _ :: _ => length names end in
  exists (m : net) (w b : tensor),
    model (load_model E (g, l)).1.1 = Some m /\
    params m !! "fc.weight"%string = Some w /\ shape w = [n; 512] /\
    params m !! "fc.bias"%string = Some b /\ shape b = [n].
Proof.
  intros Hex Hload Hloc Hnames HE n.
  assert (Hhead : head_size (recovered_names checkpoint (target_names g)) = Ok n)
    by (rewrite Hnames; apply head_size_list).
  rewrite (load_model_success_run E g l checkpoint items n Hex Hload Hloc Hhead).
  cbn [fst snd model]. rewrite HE.
  set (arch := params (replace_fc E fc_in_features n (mkNet (resnet18 E) false))).
  assert (Hw : exists w, arch !! "fc.weight"%string = Some w /\ shape w = [n; 512]).
  { subst arch. unfold replace_fc. destruct (linear_data E fc_in_features n) as [wd bd].
    cbn [params]. eexists. split.
    - rewrite lookup_insert_ne by done. by rewrite lookup_insert_eq.
    - reflexivity. }
  assert (Hb : exists b, arch !! "fc.bias"%string = Some b /\ shape b = [n]).
  { subst arch. unfold replace_fc. destruct (linear_data E fc_in_features n) as [wd bd].
    cbn [params]. eexists. split; [by rewrite lookup_insert_eq | reflexivity]. }
  destruct Hw as (w & Hw & Hws), Hb as (b & Hb & Hbs).
  destruct (nonstrict_lookup arch (remap items) _ _ Hw) as (w' & Hw' & Hws').
  destruct (nonstrict_lookup arch (remap items) _ _ Hb) as (b' & Hb' & Hbs').
  eexists _, w', b'. split; [reflexivity|]. cbn [params].
  repeat split; congruence.
Qed.

(** ** More on the metric classifier *)

Lemma classify_loop_out_of_range (predictions : list float) (names : list pyval) :
  forall (i : nat) (r : metrics),
    length predictions <= i -> classify_loop predictions names i r = Ok r.
Proof.
  induction names as [|name rest IH]; intros i r Hi; [done|].
  cbn [classify_loop]. unfold loop_body.
  destruct (Nat.ltb_spec i (length predictions)) as [Hlt|_]; [lia|].
  cbn [mbind result_bind mret result_ret]. apply IH. lia.
Qed.

Lemma classify_loop_app (predictions : list float) (names1 names2 : list pyval) :
  forall (i : nat) (r : metrics),
    classify_loop predictions (names1 ++ names2) i r =
    classify_loop predictions names1 i r ≫=
      classify_loop predictions names2 (i + length names1).
Proof.
  induction names1 as [|name rest IH]; intros i r.
  - cbn. by rewrite Nat.add_0_r.
  - cbn [app classify_loop length].
    destruct (loop_body predictions r i name) as [r'|e]; [|done].
    cbn [mbind result_bind]. rewrite IH. by rewrite Nat.add_succ_comm.
Qed.

Lemma loop_body_more_predictions (predictions extra : list float) (r : metrics)
    (i : nat) (name : pyval) :
  i < length predictions ->
  loop_body (predictions ++ extra) r i name = loop_body predictions r i name.
Proof.
  intros Hi. unfold loop_body. rewrite length_app.
  destruct (Nat.ltb_spec i (length predictions + length extra)) as [_|?]; [|lia].
  destruct (Nat.ltb_spec i (length predictions)) as [_|?]; [|lia].
  by rewrite app_nth1.
Qed.

Lemma classify_loop_more_predictions (predictions extra : list float)
    (names : list pyval) :
  forall (i : nat) (r : metrics),
    i + length names <= length predictions ->
    classify_loop (predictions ++ extra) names i r = classify_loop predictions names i r.
Proof.
  induction names as [|name rest IH]; intros i r Hi; [done|].
  cbn [classify_loop length] in *.
  rewrite loop_body_more_predictions by lia.
  destruct (loop_body predictions r i name) as [r'|e]; [|done].
  cbn [mbind result_bind]. apply IH. lia.
Qed.

(** X6. Only the pairs of a name and a prediction at the same index
    count.  Names past the end of the prediction vector change nothing and
    cannot make the classifier fail, whatever they are; predictions past
    the end of the target vector are dropped. *)
Theorem metric_classifier_bounds (names more_names : list pyval)
    (predictions more_predictions : list float) :
  (length predictions <= length names ->
   metric_classifier (VList (names ++ more_names)) predictions =
   metric_classifier (VList names) predictions) /\
  (length names <= length predictions ->
   metric_classifier (VList names) (predictions ++ more_predictions) =
   metric_classifier (VList names) predictions).
Proof.
  unfold metric_classifier. cbn [py_iter mbind result_bind]. split.
  - intros Hlen. rewrite classify_loop_app.
    destruct (classify_loop predictions names 0 results0) as [r|e]; [|done].
    cbn [mbind result_bind]. apply classify_loop_out_of_range. lia.
  - intros Hlen. apply classify_loop_more_predictions. lia.
Qed.

Lemma metric_classifier_bounds_witness :
  metric_classifier (VList ([VStr "weight_kg"] ++ [VNone; VStr "carcass"])) [of_Z 50] =
    metric_classifier (VList [VStr "weight_kg"]) [of_Z 50] /\
  metric_classifier (VList [VStr "weight_kg"]) ([of_Z 50] ++ [of_Z 7]) =
    metric_classifier (VList [VStr "weight_kg"]) [of_Z 50].
Proof.
  split.
  - apply (proj1 (metric_classifier_bounds [VStr "weight_kg"] [VNone; VStr "carcass"]
                    [of_Z 50] [])).
    simpl. lia.
  - apply (proj2 (metric_classifier_bounds [VStr "weight_kg"] [] [of_Z 50] [of_Z 7])).
    simpl. lia.
Defined.

Lemma loop_body_cases (predictions : list float) (r : metrics) (i : nat) (name : pyval) :
  (i < length predictions /\ (forall s, name <> VStr s) /\
   loop_body predictions r i name = Raise AttributeError) \/
  (exists r', loop_body predictions r i name = Ok r' /\
     (length predictions <= i \/ exists s, name = VStr s)).
Proof.
  unfold loop_body. destruct (Nat.ltb_spec i (length predictions)) as [Hlt|Hge].
  - destruct name; try (left; by repeat split).
    right. eexists. split; [reflexivity|]. right. by eexists.
  - right. eexists. split; [reflexivity|]. by left.
Qed.

Lemma classify_loop_fails_iff (predictions : list float) (names : list pyval) :
  forall (i : nat) (r : metrics),
    (classify_loop predictions names i r = Raise AttributeError <->
     exists j v, names !! j = Some v /\ i + j < length predictions /\
                 forall s, v <> VStr s) /\
    (forall e, classify_loop predictions names i r = Raise e -> e = AttributeError).
Proof.
  induction names as [|name rest IH]; intros i r.
  - split; [|done]. split; [done|]. intros (j & v & Hj & _). by rewrite lookup_nil in Hj.
  - cbn [classify_loop].
    destruct (loop_body_cases predictions r i name)
      as [(Hi & Hns & ->) | (r' & -> & Hok)]; cbn [mbind result_bind].
    + split; [|by intros e [= <-]]. split; [|done]. intros _.
      exists 0, name. rewrite Nat.add_0_r. by repeat split.
    + destruct (IH (S i) r') as [Hiff Hexn]. split; [|exact Hexn].
      rewrite Hiff. split.
      * intros (j & v & Hj & Hlt & Hns). exists (S j), v.
        rewrite <- Nat.add_succ_comm. by repeat split.
      * intros ([|j] & v & Hj & Hlt & Hns).
        -- simpl in Hj. injection Hj as <-. rewrite Nat.add_0_r in Hlt.
           destruct Hok as [?|[s ->]]; [lia | by destruct (Hns s)].
        -- exists j, v. rewrite Nat.add_succ_comm. by repeat split.
Qed.

(** X7. On target names each of which is a string or [None], the
    classifier fails exactly when a [None] has a prediction at its index,
    and then with an [AttributeError]; it raises nothing else, and it
    returns metrics when every name that has a prediction is a string. *)
Theorem metric_classifier_fails_iff (names : list (option string))
    (predictions : list float) :
  let target_names := VList (from_option VStr VNone <$> names) in
  (metric_classifier target_names predictions = Raise AttributeError <->
   exists i, names !! i = Some None /\ i < length predictions) /\
  (forall e, metric_classifier target_names predictions = Raise e -> e = AttributeError) /\
  ((forall i, i < length predictions -> names !! i <> Some None) ->
   exists m, metric_classifier target_names predictions = Ok m).
Proof.
  intros target_names. unfold target_names, metric_classifier.
  cbn [py_iter mbind result_bind].
  destruct (classify_loop_fails_iff predictions (from_option VStr VNone <$> names)
              0 results0) as [Hiff Hexn].
  assert (Hnone : (exists j v, (from_option VStr VNone <$> names) !! j = Some v /\
                               0 + j < length predictions /\ forall s, v <> VStr s) <->
                  exists i, names !! i = Some None /\ i < length predictions).
  { split.
    - intros (j & v & Hj & Hlt & Hns). exists j. split; [|exact Hlt].
      rewrite list_lookup_fmap in Hj.
      destruct (names !! j) as [[s|]|]; simpl in Hj; [|done|done].
      injection Hj as <-. by destruct (Hns s).
    - intros (i & Hi & Hlt). exists i, VNone. rewrite list_lookup_fmap, Hi.
      by repeat split. }
  split; [by rewrite Hiff|]. split; [exact Hexn|].
  intros Hall.
  destruct (classify_loop predictions (from_option VStr VNone <$> names) 0 results0)
    as [m|e] eqn:Hrun; [by exists m|].
  pose proof (Hexn e eq_refl) as ->.
  destruct (proj1 Hnone (proj1 Hiff eq_refl)) as (i & Hi & Hlt).
  by destruct (Hall i Hlt).
Qed.

Lemma set_bucket_nonneg (b0 : bucket) (v : float) (r : metrics) :
  fle zero v = true ->
  (forall b, fle zero (get_bucket b r) = true) ->
  forall b, fle zero (get_bucket b (set_bucket b0 v r)) = true.
Proof.
  intros Hv Hr b. destruct (decide (b = b0)) as [->|Hne].
  - by rewrite get_set_bucket_same.
  - by rewrite get_set_bucket_other.
Qed.

Lemma classify_loop_nonneg (predictions : list float) (names : list pyval) :
  forall (i : nat) (r r' : metrics),
    (forall b, fle zero (get_bucket b r) = true) ->
    classify_loop predictions names i r = Ok r' ->
    forall b, fle zero (get_bucket b r') = true.
Proof.
  induction names as [|name rest IH]; intros i r r' Hr Hrun.
  - by injection Hrun as <-.
  - cbn [classify_loop] in Hrun.
    destruct (loop_body predictions r i name) as [r1|e] eqn:Hbody; [|done].
    cbn [mbind result_bind] in Hrun. apply (IH (S i) r1 r'); [|done].
    unfold loop_body in Hbody.
    destruct (i <? length predictions); [|by injection Hbody as <-].
    destruct (py_lower name) as [s|e]; [|done].
    cbn [mbind result_bind mret result_ret] in Hbody. injection Hbody as <-.
    destruct (bucket_of s); [|done]. apply set_bucket_nonneg; [apply max0_nonneg | done].
Qed.

(** X8. Whatever the scaler, the target vector and the raw output, the
    metrics [predict_metrics] returns are at least 0.0, so none is
    negative and none is a NaN. *)
Theorem predict_metrics_nonneg (g : globals) (raw_numpy : list (list float))
    (l : log) (r : metrics) :
  predict_metrics g raw_numpy = (l, Ok r) ->
  forall b : bucket, fle zero (get_bucket b r) = true /\ get_bucket b r <> S754_nan.
Proof.
  intros Hrun b.
  assert (Hb : fle zero (get_bucket b r) = true).
  { unfold predict_metrics in Hrun.
    destruct (rescale (output_scaler g) raw_numpy) as [l0 [predictions|e]]; [|done].
    injection Hrun as _ Hrun. unfold metric_classifier in Hrun.
    destruct (py_iter (target_names g)) as [names|e]; [|done].
    cbn [mbind result_bind] in Hrun.
    apply (classify_loop_nonneg predictions names 0 results0 r); [|done].
    by intros []. }
  split; [done|]. intros Hnan. by rewrite Hnan in Hb.
Qed.

Lemma predict_metrics_nonneg_witness :
  fle zero (get_bucket LeanMass (mkMetrics (of_Z 50) zero zero (of_Z 40))) = true /\
  get_bucket LeanMass (mkMetrics (of_Z 50) zero zero (of_Z 40)) <> S754_nan.
Proof.
  apply (predict_metrics_nonneg
           (mkGlobals None true VNone
              (VList [VStr "weight_kg"; VStr "lean_kg"; VStr "fat_kg"; VStr "carcass"]))
           [[of_Z 50; of_Z (-2); of_Z (-3); of_Z 40]]
           [(INFO, "Raw Model Predictions"%string)]
           (mkMetrics (of_Z 50) zero zero (of_Z 40))).
  vm_compute. reflexivity.
Defined.

(** ** More on the output rescaler *)

(** X9. The rescaler raises only when [bool] of the recovered object
    raises or the raw output has no row.  A row it returns is the first
    row of the object's inverse transform, with nothing logged, or the
    first raw row: a failing transform, an object without
    [inverse_transform] and an empty result all end in the raw row. *)
Theorem rescale_outcomes (v : pyval) (raw_numpy : list (list float)) :
  (forall l e, rescale v raw_numpy = (l, Raise e) ->
     py_truthy v = Raise e \/ (raw_numpy = [] /\ e = IndexError)) /\
  (forall l p, rescale v raw_numpy = (l, Ok p) ->
     (l = [] /\ exists out, py_inverse_transform v raw_numpy = Ok out /\ index0 out = Ok p) \/
     index0 raw_numpy = Ok p) /\
  (forall row rest t, raw_numpy = row :: rest -> py_truthy v = Ok t ->
     exists l p, rescale v raw_numpy = (l, Ok p)).
Proof.
  unfold rescale. split; [|split].
  - intros l e. destruct (py_truthy v) as [[]|e0].
    + destruct (py_inverse_transform v raw_numpy) as [[|row' out]|e1];
        cbn [mbind result_bind index0]; try done;
        destruct raw_numpy; cbn [index0]; intros [= <- <-] || intros [= _ <-]; auto.
    + destruct raw_numpy; cbn [index0]; [intros [= _ <-]; auto | done].
    + intros [= _ <-]. by left.
  - intros l p. destruct (py_truthy v) as [[]|e0]; [| intros [= _ H]; by right | done].
    destruct (py_inverse_transform v raw_numpy) as [[|row' out]|e1] eqn:Hinv;
      cbn [mbind result_bind index0].
    + intros [= _ H]. by right.
    + intros [= <- <-]. left. split; [done|]. by exists (row' :: out).
    + intros [= _ H]. by right.
  - intros row rest t -> ->. destruct t; [|by eexists _, _].
    destruct (py_inverse_transform v (row :: rest)) as [[|row' out]|e1];
      cbn [mbind result_bind index0]; by eexists _, _.
Qed.

Lemma rescale_outcomes_witness :
  exists l p, rescale (VDict [("mean"%string, VNone)]) [[of_Z 50]] = (l, Ok p).
Proof.
  apply (proj2 (proj2 (rescale_outcomes (VDict [("mean"%string, VNone)]) [[of_Z 50]]))
           [of_Z 50] [] true eq_refl eq_refl).
Defined.

(** ** Startup, health and the endpoint together *)

Lemma load_model_returns (E : env) (g : globals) (l : log) :
  exists b, load_model E (g, l) = ((load_model E (g, l)).1, Ok b).
Proof.
  pose proof (load_model_outcome E g l) as [_ H]. cbv zeta in H.
  destruct (load_model E (g, l)) as [s res]. cbn [fst snd] in *.
  destruct H as [(-> & _) | (-> & _)]; eauto.
Qed.

Lemma load_model_flag (E : env) (g : globals) (l : log) :
  model_loaded g = false ->
  model_loaded (load_model E (g, l)).1.1 = true <-> (load_model E (g, l)).2 = Ok true.
Proof.
  intros Hflag. pose proof (load_model_outcome E g l) as [_ H]. cbv zeta in H.
  destruct H as [(Hr & Hl & _) | (Hr & Hl)]; rewrite Hr, Hl; [done|].
  rewrite Hflag. split; intros [=].
Qed.

(** X10. Startup always completes: whatever the load does, the server
    logs that it is ready and the state is the one the load left.  From a
    state whose flag is false, the health route then reports the flag true
    exactly when the load returned [True]. *)
Theorem startup_completes (E : env) (g : globals) (l : log) :
  let l0 := l ++ [(INFO, str_mul "=" 60);
                  (INFO, "Starting Sheep Weight Prediction API"%string);
                  (INFO, str_mul "=" 60)] in
  let r := load_model E (g, l0) in
  lifespan_startup E (g, l) =
    ((r.1.1, r.1.2 ++ [(INFO, str_mul "=" 60);
                       (INFO, "Server ready to accept requests"%string);
                       (INFO, str_mul "=" 60)]), Ok tt) /\
  (model_loaded g = false ->
   (health_check r.1.1 =
      JObj [("status"%string, JStr "healthy"); ("model_loaded"%string, JBool true)] <->
    r.2 = Ok true)).
Proof.
  intros l0 r.
  assert (Hrun : exists b, load_model E (g, l0) = (r.1, Ok b)).
  { apply load_model_returns. }
  destruct Hrun as [b Hrun]. split.
  - unfold lifespan_startup.
    erewrite run_bind by reflexivity. erewrite run_bind by reflexivity.
    erewrite run_bind by reflexivity. cbn [fst snd].
    replace (((l ++ [(INFO, str_mul "=" 60)]) ++
              [(INFO, "Starting Sheep Weight Prediction API"%string)]) ++
             [(INFO, str_mul "=" 60)]) with l0
      by (subst l0; by rewrite <- !app_assoc).
    erewrite run_bind by exact Hrun.
    erewrite run_bind by reflexivity. erewrite run_bind by reflexivity.
    unfold logger. cbn [fst snd]. by rewrite <- !app_assoc.
  - intros Hflag. unfold health_check.
    transitivity (model_loaded r.1.1 = true); [|exact (load_model_flag E g l0 Hflag)].
    split; [by intros [= ->] | by intros ->].
Qed.

(** X11. In simulation mode the status is never "Underweight", given
    that the draw is at least 40 and rounding to two places takes no value
    from 40 on below 40. *)
Theorem simulation_never_underweight (round_float : float -> Z -> float)
    (g : globals) (rq : request) :
  model_loaded g = false ->
  fle (of_Z 40) (uniform rq (of_Z 40) (of_Z 70)) = true ->
  (forall x, fle (of_Z 40) x = true -> fle (of_Z 40) (round_float x 2%Z) = true) ->
  exists w c st,
    (predict_weight_endpoint round_float g rq).2 = Ok (Simulation w c st (filename rq)) /\
    st = determine_status w /\
    st <> "Underweight"%string /\
    In st ["Low"; "Healthy"; "Good"; "Excellent"]%string.
Proof.
  intros Hflag Hdraw Hround. unfold predict_weight_endpoint. rewrite Hflag. cbn [negb snd].
  eexists _, _, _. split; [reflexivity|]. split; [reflexivity|].
  specialize (Hround _ Hdraw).
  set (w := round_float (uniform rq (of_Z 40) (of_Z 70)) 2%Z) in *.
  unfold determine_status. rewrite (fle_not_flt _ _ Hround).
  destruct (flt w (of_Z 45)); [split; [done | simpl; tauto]|].
  destruct (flt w (of_Z 55)); [split; [done | simpl; tauto]|].
  destruct (flt w (of_Z 65)); split; (done || simpl; tauto).
Qed.

Lemma simulation_never_underweight_witness :
  exists w c st,
    (predict_weight_endpoint (fun x _ => x) initial_globals example_request).2 =
      Ok (Simulation w c st "sheep.jpg") /\
    st = determine_status w /\
    st <> "Underweight"%string /\
    In st ["Low"; "Healthy"; "Good"; "Excellent"]%string.
Proof.
  apply (simulation_never_underweight (fun x _ => x) initial_globals example_request).
  - reflexivity.
  - reflexivity.
  - intros x Hx. exact Hx.
Defined.

Lemma real_prediction_default_names (round_float : float -> Z -> float) (g : globals)
    (rq : request) (l : log) (r : report) :
  target_names g = default_target_names ->
  real_prediction round_float g rq = (l, Ok r) ->
  status r = "Underweight"%string /\
  lean_percent r = PInt 0 /\ fat_percent r = PInt 0 /\ bone_percent r = PInt 0 /\
  weight_kg r = round_float zero 2%Z /\ raw_lean r = round_float zero 2%Z /\
  raw_fat r = round_float zero 2%Z /\ raw_carcass_total r = round_float zero 2%Z.
Proof.
  intros Hnames. unfold real_prediction, predict_metrics.
  destruct (forward rq) as [raw|e]; [|done].
  destruct (rescale (output_scaler g) raw) as [l0 [predictions|e]]; [|done].
  rewrite Hnames.
  assert (Hc : metric_classifier default_target_names predictions = Ok results0).
  { unfold metric_classifier, default_target_names.
    cbn [py_iter mbind result_bind classify_loop].
    repeat (rewrite loop_body_unmatched by reflexivity; cbn [mbind result_bind]).
    reflexivity. }
  rewrite Hc. intros [= _ <-]. repeat split.
Qed.

(** X12. With the default target vector, every report the endpoint
    returns is the same whatever the image: status "Underweight", weight
    and raw masses the rounding of 0.0, and the three percentages 0. *)
Theorem default_names_report (round_float : float -> Z -> float) (g : globals)
    (rq : request) (l : log) (r : report) :
  target_names g = default_target_names ->
  predict_weight_endpoint round_float g rq = (l, Ok (Success r)) ->
  status r = "Underweight"%string /\
  lean_percent r = PInt 0 /\ fat_percent r = PInt 0 /\ bone_percent r = PInt 0 /\
  weight_kg r = round_float zero 2%Z /\ raw_lean r = round_float zero 2%Z /\
  raw_fat r = round_float zero 2%Z /\ raw_carcass_total r = round_float zero 2%Z.
Proof.
  intros Hnames. unfold predict_weight_endpoint.
  destruct (negb (model_loaded g)); [done|].
  destruct (image_open rq); [|done].
  destruct (real_prediction round_float g rq) as [l0 [r0|e]] eqn:Hreal; [|done].
  intros [= _ <-]. by apply (real_prediction_default_names round_float g rq l0 r0).
Qed.

Lemma default_names_report_witness :
  exists r : report,
    (predict_weight_endpoint (fun x _ => x)
       (mkGlobals None true VNone default_target_names) example_request).2 =
      Ok (Success r) /\
    status r = "Underweight"%string /\ bone_percent r = PInt 0.
Proof.
  eexists. split; [reflexivity|].
  pose proof (default_names_report (fun x _ => x)
                (mkGlobals None true VNone default_target_names) example_request
                _ _ eq_refl eq_refl) as (H1 & _ & _ & H4 & _).
  split; [exact H1 | exact H4].
Defined.


(** ** The client's upload *)

(** X14. The upload never fails to give a result the caller can read.
    A result is a success, with a weight, a confidence, a status and the
    base name of the file, exactly when the file exists and opens and the
    server answers with status 200 and a dictionary whose "success" is
    truthy; otherwise it is a failure with an error. *)
Theorem process_upload_result (basename : string -> string) (file_path : string)
    (U : upload_env) :
  let result := process_upload basename file_path U in
  let answered :=
    up_exists U = true /\ up_open U = None /\
    exists d, up_post U = PostResponse 200 (inl (JObj d)) /\
              json_truthy (get_default d "success" (JBool false)) = true in
  (answered ->
   Dict.get result "success" = Some (JBool true) /\
   is_Some (Dict.get result "weight_kg") /\
   is_Some (Dict.get result "confidence") /\
   is_Some (Dict.get result "status") /\
   Dict.get result "image_name" = Some (JStr (basename file_path))) /\
  (~ answered ->
   Dict.get result "success" = Some (JBool false) /\
   is_Some (Dict.get result "error")) /\
  (Dict.get result "success" = Some (JBool true) <-> answered).
Proof.
  intros result answered.
  assert (Hyes : answered ->
            result =
            match up_post U with
            | PostResponse _ (inl (JObj d)) =>
                [("success"%string, JBool true);
                 ("weight_kg"%string, get_default d "weight_kg" (JNum (PInt 0)));
                 ("confidence"%string, get_default d "confidence" (JNum (PInt 0)));
                 ("status"%string, get_default d "status" (JStr "Unknown"));
                 ("image_name"%string, JStr (basename file_path))]
            | _ => []
            end).
  { intros (Hex & Hop & d & Hpost & Htruthy). subst result. unfold process_upload.
    by rewrite Hex, Hop, Hpost, Htruthy. }
  assert (Hno : ~ answered ->
            Dict.get result "success" = Some (JBool false) /\
            is_Some (Dict.get result "error")).
  { intros Hnot. subst result answered. unfold process_upload.
    destruct (up_exists U); [|by split; eauto]. cbn [negb].
    destruct (up_open U) as [msg|]; [by split; eauto|].
    destruct (up_post U) as [[| |msg]|code [data|msg]]; try (by split; eauto).
    - destruct (Z.eqb_spec code 200) as [->|Hne]; [|by split; eauto].
      destruct data as [| | | | |d]; try (by split; eauto).
      destruct (json_truthy (get_default d "success" (JBool false))) eqn:Ht;
        [|by split; eauto].
      destruct Hnot. repeat split. by exists d.
    - destruct (Z.eqb_spec code 200); by split; eauto. }
  assert (Hdec : answered \/ ~ answered).
  { subst answered.
    destruct (up_exists U); [|right; by intros (? & _)].
    destruct (up_open U) as [msg|]; [right; by intros (_ & ? & _)|].
    destruct (up_post U) as [e|code [data|msg]];
      [right; by intros (_ & _ & d & ? & _) | | right; by intros (_ & _ & d & ? & _)].
    destruct (Z.eqb_spec code 200) as [->|Hne];
      [|right; intros (_ & _ & d & [= ? _] & _); done].
    destruct data as [| | | | |d]; try (right; by intros (_ & _ & d' & ? & _)).
    destruct (json_truthy (get_default d "success" (JBool false))) eqn:Ht.
    - left. repeat split. by exists d.
    - right. intros (_ & _ & d' & [= <-] & Ht'). congruence. }
  split; [|split; [exact Hno|]].
  - intros Hans. rewrite (Hyes Hans).
    destruct Hans as (_ & _ & d & -> & _). by repeat split; eauto.
  - split.
    + intros Hs. destruct Hdec as [H|H]; [done|].
      destruct (Hno H) as [Hf _]. congruence.
    + intros Hans. rewrite (Hyes Hans).
      by destruct Hans as (_ & _ & d & -> & _).
Qed.

Lemma process_upload_result_witness :
  Dict.get (process_upload (fun p => p) "sheep.jpg"
              (mkUploadEnv true None
                 (PostResponse 200 (inl (JObj [("success"%string, JBool true)])))))
    "success" = Some (JBool true) /\
  is_Some (Dict.get (process_upload (fun p => p) "sheep.jpg"
                       (mkUploadEnv true None (PostRaises ReqTimeout))) "error").
Proof.
  split.
  - apply (proj1 (process_upload_result (fun p => p) "sheep.jpg"
                    (mkUploadEnv true None
                       (PostResponse 200 (inl (JObj [("success"%string, JBool true)])))))).
    repeat split. by exists [("success"%string, JBool true)].
  - apply (proj1 (proj2 (process_upload_result (fun p => p) "sheep.jpg"
                           (mkUploadEnv true None (PostRaises ReqTimeout))))).
    intros (_ & _ & d & H & _). discriminate H.
Defined.

(** X15. What the client makes of the answer of the prediction route,
    when the answer reaches it as sent.  Of a report and of a simulated
    answer alike it keeps the weight, the confidence and the status, and
    names the image by the base name of its own file; the details and the
    simulation note are dropped.  Of an answer with status 500 it keeps
    nothing: the error is "Server error: 500". *)
Theorem client_of_response (exn_text : exn -> string) (basename : string -> string)
    (file_path : string) (U : upload_env) (resp : response) :
  up_exists U = true ->
  up_open U = None ->
  up_post U = PostResponse (response_status resp) (inl (response_body exn_text resp)) ->
  process_upload basename file_path U =
  match resp with
  | Success r =>
      [("success"%string, JBool true);
       ("weight_kg"%string, JNum (PFloat (weight_kg r)));
       ("confidence"%string, JNum (PFloat (confidence r)));
       ("status"%string, JStr (status r));
       ("image_name"%string, JStr (basename file_path))]
  | Simulation w c st _ =>
      [("success"%string, JBool true);
       ("weight_kg"%string, JNum (PFloat w));
       ("confidence"%string, JNum (PFloat c));
       ("status"%string, JStr st);
       ("image_name"%string, JStr (basename file_path))]
  | Error500 _ => upload_failed (JStr "Server error: 500")
  end.
Proof.
  intros Hex Hop Hpost. unfold process_upload. rewrite Hex, Hop, Hpost.
  by destruct resp.
Qed.

Lemma client_of_response_witness :
  process_upload (fun p => p) "sheep.jpg"
    (mkUploadEnv true None
       (PostResponse 500 (inl (JObj [("error"%string, JStr "boom")])))) =
  upload_failed (JStr "Server error: 500").
Proof.
  exact (client_of_response (fun _ => "boom"%string) (fun p => p) "sheep.jpg"
           (mkUploadEnv true None
              (PostResponse 500 (inl (JObj [("error"%string, JStr "boom")]))))
           (Error500 TypeError) eq_refl eq_refl eq_refl).
Defined.

(** ** More on the key remapper *)

Section RemapMore.
Context {V : Type}.
Implicit Types (d acc : list (string * V)) (k key : string) (v : V).

Lemma dict_set_elem acc k v (k0 : string) (v0 : V) :
  (k0, v0) ∈ Dict.set acc k v -> (k0, v0) ∈ acc \/ (k0 = k /\ v0 = v).
Proof.
  induction acc as [|[k' v'] acc IH]; cbn [Dict.set].
  - intros H. apply list_elem_of_singleton in H. injection H as -> ->. by right.
  - destruct (String.eqb_spec k' k) as [->|Hne]; intros H;
      apply elem_of_cons in H as [H|H].
    + injection H as -> ->. by right.
    + left. by right.
    + left. rewrite H. by left.
    + destruct (IH H) as [?|?]; [left; by right | by right].
Qed.

Lemma dict_set_length acc k v : length (Dict.set acc k v) <= S (length acc).
Proof.
  induction acc as [|[k' v'] acc IH]; cbn [Dict.set length]; [lia|].
  destruct (String.eqb k' k); cbn [length]; lia.
Qed.

Lemma remap_step_cases acc key v :
  (exists k, new_key_of key = Some k /\ remap_step acc (key, v) = Dict.set acc k v) \/
  (new_key_of key = None /\ remap_step acc (key, v) = acc).
Proof.
  rewrite remap_step_new_key. destruct (new_key_of key) as [k|]; [left | right]; eauto.
Qed.

(** X16. The output of the remapper is a dictionary: no name occurs
    twice.  It has at most as many entries as the source mapping, and
    each entry holds the value of a source entry whose name is remapped
    to its name: the remapper invents neither names nor values. *)
Theorem remap_invariants d :
  Dict.wf (remap d) /\
  length (remap d) <= length d /\
  forall k v, (k, v) ∈ remap d ->
    exists key, (key, v) ∈ d /\ new_key_of key = Some k.
Proof.
  split; [apply remap_wf|]. induction d as [|[key v0] d [IHlen IHin]] using rev_ind.
  - split; [done|]. intros k v H. by apply elem_of_nil in H.
  - rewrite remap_snoc, length_app. cbn [length].
    destruct (remap_step_cases (remap d) key v0) as [(k0 & Hk & ->) | (Hk & ->)].
    + split.
      * pose proof (dict_set_length (remap d) k0 v0). lia.
      * intros k v H. apply dict_set_elem in H as [H|[-> ->]].
        -- destruct (IHin k v H) as (key' & Hin & Hnk). exists key'.
           split; [|done]. apply elem_of_app. by left.
        -- exists key. split; [|done]. apply elem_of_app. right. by left.
    + split; [lia|]. intros k v H.
      destruct (IHin k v H) as (key' & Hin & Hnk). exists key'.
      split; [|done]. apply elem_of_app. by left.
Qed.

(** X17. Lookup in the output of the remapper.  A name is absent
    exactly when no source entry is remapped to it; otherwise it holds
    the value of the last source entry remapped to it, so that on a
    collision the later entry wins. *)
Theorem remap_last_wins d k :
  (Dict.get (remap d) k = None <->
   forall i key v, d !! i = Some (key, v) -> new_key_of key <> Some k) /\
  (forall i key v,
     d !! i = Some (key, v) ->
     new_key_of key = Some k ->
     (forall j key' v', i < j -> d !! j = Some (key', v') ->
                        new_key_of key' <> Some k) ->
     Dict.get (remap d) k = Some v).
Proof.
  induction d as [|[key0 v0] d [IHnone IHlast]] using rev_ind.
  - split.
    + split; [|done]. intros _ i key v H. by rewrite lookup_nil in H.
    + intros i key v H. by rewrite lookup_nil in H.
  - rewrite remap_snoc, remap_step_new_key. split.
    + destruct (new_key_of key0) as [k0|] eqn:Hk0.
      * destruct (decide (k0 = k)) as [->|Hne].
        -- rewrite dict_get_set_eq. split; [done|]. intros H.
           destruct (H (length d) key0 v0); [|done].
           by rewrite lookup_app_r, Nat.sub_diag by lia.
        -- rewrite dict_get_set_ne by done. rewrite IHnone. split.
           ++ intros H i key v Hi. apply lookup_app_Some in Hi as [Hi|[_ Hi]].
              ** by apply (H i key v).
              ** destruct (i - length d) as [|n]; [|discriminate Hi].
                 injection Hi as <- <-. congruence.
           ++ intros H i key v Hi. apply (H i key v). by apply lookup_app_l_Some.
      * rewrite IHnone. split.
        -- intros H i key v Hi. apply lookup_app_Some in Hi as [Hi|[_ Hi]].
           ++ by apply (H i key v).
           ++ destruct (i - length d) as [|n]; [|discriminate Hi].
              injection Hi as <- <-. congruence.
        -- intros H i key v Hi. apply (H i key v). by apply lookup_app_l_Some.
    + intros i key v Hi Hk Hlater.
      apply lookup_app_Some in Hi as [Hi|[Hge Hi]].
      * assert (Hlt : i < length d) by (by apply lookup_lt_Some in Hi).
        assert (Hk0 : new_key_of key0 <> Some k).
        { apply (Hlater (length d) key0 v0 Hlt).
          by rewrite lookup_app_r, Nat.sub_diag by lia. }
        assert (Hget : Dict.get (remap d) k = Some v).
        { apply (IHlast i key v Hi Hk). intros j key' v' Hj Hdj.
          apply (Hlater j key' v' Hj). by apply lookup_app_l_Some. }
        destruct (new_key_of key0) as [k0|]; [|done].
        rewrite dict_get_set_ne by congruence. done.
      * destruct (i - length d) as [|n]; [|discriminate Hi].
        injection Hi as <- <-. rewrite Hk. apply dict_get_set_eq.
Qed.

(** X18. A name that starts with "cnn." and has no other occurrence
    of "cnn." is kept under the name without the prefix. *)
Theorem remap_step_strips_prefix acc key v :
  startswith key "cnn." = true ->
  str_in "cnn." (strip_prefix key "cnn.") = false ->
  remap_step acc (key, v) = Dict.set acc (strip_prefix key "cnn.") v.
Proof.
  intros Hpre Hrest.
  by rewrite remap_step_new_key, (new_key_of_single_prefix key Hpre Hrest).
Qed.
End RemapMore.

Lemma remap_last_wins_witness :
  Dict.get (remap [("bn1.weight"%string, 1); ("cnn.bn1.weight"%string, 2)]) "bn1.weight" =
    Some 2.
Proof.
  apply (proj2 (remap_last_wins
                  [("bn1.weight"%string, 1); ("cnn.bn1.weight"%string, 2)] "bn1.weight")
           1 "cnn.bn1.weight"%string 2 eq_refl eq_refl).
  intros [|[|j]] key' v' Hj Hd; [lia | lia | discriminate Hd].
Defined.

Lemma remap_step_strips_prefix_witness :
  remap_step [] ("cnn.layer1.0.conv1.weight"%string, 7) =
    [("layer1.0.conv1.weight"%string, 7)].
Proof.
  exact (remap_step_strips_prefix [] "cnn.layer1.0.conv1.weight" 7 eq_refl eq_refl).
Defined.

(** ** The further properties at concrete inputs *)


Lemma load_model_metadata_witness :
  output_scaler
    (load_model (example_env true (Ok example_container)) (initial_globals, [])).1.1 =
    VScaler failing_scaler /\
  target_names
    (load_model (example_env true (Ok example_container)) (initial_globals, [])).1.1 =
    VList [VStr "weight_kg"; VStr "carcass_kg"].
Proof.
  exact (load_model_metadata (example_env true (Ok example_container))
           initial_globals [] example_container eq_refl eq_refl).
Defined.

Lemma failed_load_replaces_model_witness :
  model_loaded (load_model (example_env true (Ok (VList []))) (example_loaded, [])).1.1 =
    true /\
  exists m : net,
    model (load_model (example_env true (Ok (VList []))) (example_loaded, [])).1.1 =
      Some m /\
    eval_mode m = false.
Proof.
  apply (failed_load_replaces_model (example_env true (Ok (VList []))) example_loaded []
           (VList []) eq_refl eq_refl).
  vm_compute. reflexivity.
Defined.

Lemma load_model_head_shape_witness :
  exists (m : net) (w b : tensor),
    model (load_model (example_env true (Ok example_container)) (initial_globals, [])).1.1 =
      Some m /\
    params m !! "fc.weight"%string = Some w /\ shape w = [2; 512] /\
    params m !! "fc.bias"%string = Some b /\ shape b = [2].
Proof.
  exact (load_model_head_shape (example_env true (Ok example_container)) initial_globals []
           example_container
           [("scaler"%string, VNone);
            ("target_scaler"%string, VScaler failing_scaler);
            ("target_names"%string, VList [VStr "weight_kg"; VStr "carcass_kg"]);
            ("cnn.bn1.weight"%string, VTensor example_tensor)]
           [VStr "weight_kg"; VStr "carcass_kg"]
           eq_refl eq_refl eq_refl eq_refl eq_refl).
Defined.

Lemma metric_classifier_fails_iff_witness :
  metric_classifier (VList (from_option VStr VNone <$> [Some "weight_kg"%string; None]))
    [of_Z 50; of_Z 20] = Raise AttributeError /\
  exists m,
    metric_classifier (VList (from_option VStr VNone <$> [Some "weight_kg"%string; None]))
      [of_Z 50] = Ok m.
Proof.
  split.
  - apply (proj1 (metric_classifier_fails_iff [Some "weight_kg"%string; None]
                    [of_Z 50; of_Z 20])).
    exists 1. split; [reflexivity | simpl; lia].
  - apply (proj2 (proj2 (metric_classifier_fails_iff [Some "weight_kg"%string; None]
                           [of_Z 50]))).
    intros [|i] Hi; [discriminate | simpl in Hi; lia].
Defined.

Lemma startup_completes_witness :
  health_check
    (load_model (example_env true (Ok example_checkpoint))
       (initial_globals,
        [(INFO, str_mul "=" 60);
         (INFO, "Starting Sheep Weight Prediction API"%string);
         (INFO, str_mul "=" 60)])).1.1 =
  JObj [("status"%string, JStr "healthy"); ("model_loaded"%string, JBool true)].
Proof.
  apply (proj2 (proj2 (startup_completes (example_env true (Ok example_checkpoint))
                         initial_globals []) eq_refl)).
  vm_compute. reflexivity.
Defined.

